(** * CHIP-8 interpreter (src/main.c): shallow embedding and checked properties

    The interpreter core of [main.c] is embedded as pure functions over a
    record [State] that mirrors [struct State].  Fixed-width C integers are
    integers of [Z] with the wrap-around written out ([u8], [u16], [u64]);
    [uint8_t] operands of an arithmetic or relational operator are promoted
    to [int] first, exactly as C does, so such expressions are computed in
    [Z] with no wrap-around and only the store truncates.

    The byte buffers are lists.  An access outside the 4096-byte memory is
    undefined behaviour in C; the model returns [None] there.  [memcpy] of a
    [uint16_t] follows the byte order of the little-endian hosts the program
    is written for (it uses [fopen_s]).  Text printed with [printf] is
    returned as a list of diagnostics.  [rand()] is a parameter of the
    step. *)

From Stdlib Require Import ZArith List Lia Bool.
From stdpp Require Import base list.
Import ListNotations.
Local Open Scope Z_scope.

(** ** Fixed-width integers *)

Definition u8 (z : Z) : Z := z mod 0x100.
Definition u16 (z : Z) : Z := z mod 0x10000.
Definition u64 (z : Z) : Z := z mod 0x10000000000000000.

(** The value of a C relational expression. *)
Definition c_bool (b : bool) : Z := if b then 1 else 0.

(** ** Constants *)

Definition MEMORY_SIZE : Z := 0x1000.
Definition PROGRAM_START : Z := 0x200.
Definition STACK_START : Z := 0x52.
Definition FONT_START : Z := 0x50.

Definition FONTS : list Z :=
  [ 0xF0; 0x90; 0x90; 0x90; 0xF0;  (* 0 *)
    0x20; 0x60; 0x20; 0x20; 0x70;  (* 1 *)
    0xF0; 0x10; 0xF0; 0x80; 0xF0;  (* 2 *)
    0xF0; 0x10; 0xF0; 0x10; 0xF0;  (* 3 *)
    0x90; 0x90; 0xF0; 0x10; 0x10;  (* 4 *)
    0xF0; 0x80; 0xF0; 0x10; 0xF0;  (* 5 *)
    0xF0; 0x80; 0xF0; 0x90; 0xF0;  (* 6 *)
    0xF0; 0x10; 0x20; 0x40; 0x40;  (* 7 *)
    0xF0; 0x90; 0xF0; 0x90; 0xF0;  (* 8 *)
    0xF0; 0x90; 0xF0; 0x10; 0xF0;  (* 9 *)
    0xF0; 0x90; 0xF0; 0x90; 0x90;  (* A *)
    0xE0; 0x90; 0xE0; 0x90; 0xE0;  (* B *)
    0xF0; 0x80; 0x80; 0x80; 0xF0;  (* C *)
    0xE0; 0x90; 0x90; 0x90; 0xE0;  (* D *)
    0xF0; 0x80; 0xF0; 0x80; 0xF0;  (* E *)
    0xF0; 0x80; 0xF0; 0x80; 0x80   (* F *) ].

(** ** The error monad of undefined accesses *)

Definition bind {A B : Type} (o : option A) (k : A -> option B) : option B :=
  match o with
  | Some a => k a
  | None => None
  end.

Notation "'do' x <- e ; k" := (bind e (fun x => k))
  (at level 10, x name, e at level 100, k at level 200).
Notation "'do' ' p <- e ; k" := (bind e (fun x => match x with p => k end))
  (at level 10, p pattern, e at level 100, k at level 200).

(** ** Byte buffers *)

(** [m[a]] as an rvalue. *)
Definition load (m : list Z) (a : Z) : option Z :=
  if a <? 0 then None else m !! Z.to_nat a.

(** [m[a] = v]. *)
Definition store (m : list Z) (a v : Z) : option (list Z) :=
  if (0 <=? a) && (a <? Z.of_nat (length m))
  then Some (<[Z.to_nat a := v]> m)
  else None.

(** The writes of [memcpy(&m[a], bs, len bs)], with no bounds check. *)
Fixpoint poke_bytes (m : list Z) (a : nat) (bs : list Z) : list Z :=
  match bs with
  | [] => m
  | b :: bs' => poke_bytes (<[a := b]> m) (S a) bs'
  end.

Definition in_bounds (m : list Z) (a n : Z) : bool :=
  (0 <=? a) && (a + n <=? Z.of_nat (length m)).

(** [memcpy(&m[a], bs, len bs)]. *)
Definition memcpy_to (m : list Z) (a : Z) (bs : list Z) : option (list Z) :=
  if in_bounds m a (Z.of_nat (length bs))
  then Some (poke_bytes m (Z.to_nat a) bs)
  else None.

(** The [n] bytes read by [memcpy(dst, &m[a], n)]. *)
Definition memcpy_from (m : list Z) (a : Z) (n : nat) : option (list Z) :=
  if in_bounds m a (Z.of_nat n)
  then Some (take n (drop (Z.to_nat a) m))
  else None.

(** ** The machine state *)

Record State : Type := mkState {
  memory : list Z;
  regs_v : list Z;
  delay_timer : Z;
  sound_timer : Z;
  keycode : Z;
  pc : Z;
  sp : Z;
  reg_i : Z;
  end_of_program : bool;
  waiting_for_key : bool;
  video_buffer : list Z
}.

Definition set_memory (s : State) (m : list Z) : State :=
  mkState m (regs_v s) (delay_timer s) (sound_timer s) (keycode s) (pc s)
          (sp s) (reg_i s) (end_of_program s) (waiting_for_key s)
          (video_buffer s).

Definition set_regs_v (s : State) (r : list Z) : State :=
  mkState (memory s) r (delay_timer s) (sound_timer s) (keycode s) (pc s)
          (sp s) (reg_i s) (end_of_program s) (waiting_for_key s)
          (video_buffer s).

Definition set_delay_timer (s : State) (t : Z) : State :=
  mkState (memory s) (regs_v s) t (sound_timer s) (keycode s) (pc s)
          (sp s) (reg_i s) (end_of_program s) (waiting_for_key s)
          (video_buffer s).

Definition set_sound_timer (s : State) (t : Z) : State :=
  mkState (memory s) (regs_v s) (delay_timer s) t (keycode s) (pc s)
          (sp s) (reg_i s) (end_of_program s) (waiting_for_key s)
          (video_buffer s).

Definition set_keycode (s : State) (k : Z) : State :=
  mkState (memory s) (regs_v s) (delay_timer s) (sound_timer s) k (pc s)
          (sp s) (reg_i s) (end_of_program s) (waiting_for_key s)
          (video_buffer s).

Definition set_pc (s : State) (a : Z) : State :=
  mkState (memory s) (regs_v s) (delay_timer s) (sound_timer s) (keycode s) a
          (sp s) (reg_i s) (end_of_program s) (waiting_for_key s)
          (video_buffer s).

Definition set_sp (s : State) (a : Z) : State :=
  mkState (memory s) (regs_v s) (delay_timer s) (sound_timer s) (keycode s)
          (pc s) a (reg_i s) (end_of_program s) (waiting_for_key s)
          (video_buffer s).

Definition set_reg_i (s : State) (a : Z) : State :=
  mkState (memory s) (regs_v s) (delay_timer s) (sound_timer s) (keycode s)
          (pc s) (sp s) a (end_of_program s) (waiting_for_key s)
          (video_buffer s).

Definition set_video_buffer (s : State) (v : list Z) : State :=
  mkState (memory s) (regs_v s) (delay_timer s) (sound_timer s) (keycode s)
          (pc s) (sp s) (reg_i s) (end_of_program s) (waiting_for_key s) v.

(** [state->regs_v[i]]; every index the interpreter uses is a 4-bit field
    of the opcode or the constant [0xF], so it is always in range. *)
Definition reg (s : State) (i : Z) : Z :=
  default 0 (regs_v s !! Z.to_nat i).

Definition set_reg (s : State) (i v : Z) : State :=
  set_regs_v s (<[Z.to_nat i := v]> (regs_v s)).

(** [state->video_buffer[y]], used with [y < 32] only. *)
Definition video_row (s : State) (y : Z) : Z :=
  default 0 (video_buffer s !! Z.to_nat y).

Definition set_video_row (s : State) (y v : Z) : State :=
  set_video_buffer s (<[Z.to_nat y := v]> (video_buffer s)).

(** ** Initialisation and ROM loading *)

Definition state_init : State :=
  {| memory := poke_bytes (replicate (Z.to_nat MEMORY_SIZE) 0)
                          (Z.to_nat FONT_START) FONTS;
     regs_v := replicate 16 0;
     delay_timer := 0;
     sound_timer := 0;
     keycode := 16;
     pc := PROGRAM_START;
     sp := STACK_START;
     reg_i := 0;
     end_of_program := false;
     waiting_for_key := false;
     video_buffer := replicate 32 0 |}.

(** [load_rom] on the bytes [data] of the file: [read_rom] refuses an empty
    file and one of [MEMORY_SIZE - PROGRAM_START] bytes or more. *)
Definition load_rom (s : State) (data : list Z) : option State :=
  let size := Z.of_nat (length data) in
  if (size <=? 0) || (MEMORY_SIZE - PROGRAM_START <=? size) then None
  else do m <- memcpy_to (memory s) PROGRAM_START data;
       Some (set_memory s m).

(** ** The call stack *)

(** [value = (value << 8) | (value >> 8)] on a [uint16_t]. *)
Definition flip_endianness (value : Z) : Z :=
  u16 (Z.lor (Z.shiftl value 8) (Z.shiftr value 8)).

Definition state_push_to_stack (s : State) (value : Z) : option State :=
  let value := flip_endianness value in
  do m <- memcpy_to (memory s) (sp s) [Z.land value 0xFF; Z.shiftr value 8];
  Some (set_sp (set_memory s m) (u16 (sp s + 2))).

Definition state_pop_from_stack (s : State) : option (Z * State) :=
  let s := set_sp s (u16 (sp s - 2)) in
  do hi <- load (memory s) (sp s);
  do lo <- load (memory s) (sp s + 1);
  let address := u16 (Z.lor (Z.shiftl hi 8) lo) in
  do m <- memcpy_to (memory s) (sp s) [0; 0];
  Some (address, set_memory s m).

(** ** Composite instructions *)

Definition instruction_clear_video (s : State) : State :=
  set_video_buffer s (replicate 32 0).

(** The mask of one sprite byte: [(sprite_mask << 55) >> start_x]. *)
Definition sprite_mask (byte start_x : Z) : Z :=
  Z.shiftr (u64 (Z.shiftl byte 55)) start_x.

(** The body of the row loop, run [todo] more times from [row]; the loop
    is entered with [todo = height] and [row = 0], so [row < height] holds
    exactly while [todo] is not zero. *)
Fixpoint draw_rows (todo : nat) (row start_x start_y : Z) (s : State)
  : option State :=
  match todo with
  | O => Some s
  | S todo' =>
      let y := u8 (start_y + row) in
      if 32 <=? y then Some s
      else
        do byte <- load (memory s) (reg_i s + row);
        let mask := sprite_mask byte start_x in
        let row_data := video_row s y in
        let s := set_video_row s y (Z.lxor row_data mask) in
        let s := if Z.land row_data mask =? 0 then s else set_reg s 0xF 1 in
        draw_rows todo' (u8 (row + 1)) start_x start_y s
  end.

Definition instruction_draw_sprite (s : State) (regx regy height : Z)
  : option State :=
  (* Wraps starting position around *)
  let start_x := u8 (reg s regx mod 64) in
  let start_y := u8 (reg s regy mod 32) in
  let s := set_reg s 0xF 0 in
  draw_rows (Z.to_nat height) 0 start_x start_y s.

Definition instruction_decimal_digits (s : State) (value : Z)
  : option State :=
  do m <- store (memory s) (reg_i s) (u8 (value / 100));
  do m <- store m (reg_i s + 1) (u8 ((value / 10) mod 10));
  do m <- store m (reg_i s + 2) (u8 (value mod 10));
  Some (set_memory s m).

(** ** One interpreter step *)

(** What [state_step] prints. *)
Inductive Diag : Type :=
| TodoCall
| Unknown8 (opcode : Z)
| UnknownE (opcode : Z)
| UnknownF (opcode : Z)
| UnknownOpcode (opcode : Z).

Definition nibble1 (opcode : Z) : Z := u8 (Z.shiftr opcode 12).
Definition nibble2 (opcode : Z) : Z := u8 (Z.shiftr (Z.land opcode 0xF00) 8).
Definition nibble3 (opcode : Z) : Z := u8 (Z.shiftr (Z.land opcode 0xF0) 4).
Definition nibble4 (opcode : Z) : Z := u8 (Z.land opcode 0xF).
Definition imm_nn (opcode : Z) : Z := u8 (Z.land opcode 0xFF).
Definition imm_nnn (opcode : Z) : Z := u16 (Z.land opcode 0xFFF).

(** The opcode at [pc]: [memory[pc] << 8 | memory[pc + 1]]. *)
Definition fetch (s : State) : option Z :=
  do hi <- load (memory s) (pc s);
  do lo <- load (memory s) (pc s + 1);
  Some (u16 (Z.lor (Z.shiftl hi 8) lo)).

(** The result of the [switch]: the state, [should_step] and the output. *)
Definition Outcome : Type := State * bool * list Diag.

Definition advance (s : State) : Outcome := (s, true, []).
Definition stay (s : State) : Outcome := (s, false, []).
Definition report (s : State) (d : Diag) : Outcome := (s, true, [d]).

(** [if (cond) { state->pc += 4; should_step = false; }] *)
Definition skip_if (s : State) (cond : bool) : Outcome :=
  if cond then stay (set_pc s (u16 (pc s + 4))) else advance s.

Definition exec_8 (s : State) (opcode : Z) : Outcome :=
  let x := nibble2 opcode in
  let y := nibble3 opcode in
  match nibble4 opcode with
  | 0x0 => advance (set_reg s x (reg s y))
  | 0x1 => advance (set_reg s x (Z.lor (reg s x) (reg s y)))
  | 0x2 => advance (set_reg s x (Z.land (reg s x) (reg s y)))
  | 0x3 => advance (set_reg s x (Z.lxor (reg s x) (reg s y)))
  | 0x4 =>
      (* Carry *)
      let s := set_reg s 0xF (c_bool (reg s x >? reg s x + reg s y)) in
      advance (set_reg s x (u8 (reg s x + reg s y)))
  | 0x5 =>
      (* Carry *)
      let s := set_reg s 0xF (c_bool (reg s x <? reg s x - reg s y)) in
      advance (set_reg s x (u8 (reg s x - reg s y)))
  | 0x6 =>
      let s := set_reg s 0xF (Z.land (reg s x) 0x1) in
      advance (set_reg s x (Z.shiftr (reg s x) 1))
  | 0x7 =>
      (* Carry *)
      let s := set_reg s 0xF (c_bool (reg s y <? reg s y - reg s x)) in
      advance (set_reg s x (u8 (reg s y - reg s x)))
  | 0xE =>
      let s := set_reg s 0xF (Z.shiftr (reg s x) 7) in
      advance (set_reg s x (u8 (Z.shiftl (reg s x) 1)))
  | _ => report s (Unknown8 opcode)
  end.

Definition exec_E (s : State) (opcode : Z) : Outcome :=
  let x := nibble2 opcode in
  match imm_nn opcode with
  | 0x9E => skip_if s (keycode s =? reg s x)
  | 0xA1 => skip_if s (negb (keycode s =? reg s x))
  | _ => report s (UnknownE opcode)
  end.

Definition exec_F (s : State) (opcode : Z) : option Outcome :=
  let x := nibble2 opcode in
  match imm_nn opcode with
  | 0x07 => Some (advance (set_reg s x (delay_timer s)))
  | 0x0A =>
      (* If a key is pressed *)
      if negb (keycode s =? 16)
      then Some (advance (set_reg s x (keycode s)))
      else (* Stay still (block) *) Some (stay s)
  | 0x15 => Some (advance (set_delay_timer s (reg s x)))
  | 0x18 => Some (advance (set_sound_timer s (reg s x)))
  | 0x1E => Some (advance (set_reg_i s (u16 (reg_i s + reg s x))))
  | 0x29 => Some (advance (set_reg_i s (u16 (FONT_START + reg s x))))
  | 0x33 =>
      do s <- instruction_decimal_digits s (reg s x);
      Some (advance s)
  | 0x55 =>
      do m <- memcpy_to (memory s) (reg_i s)
                        (take (Z.to_nat (x + 1)) (regs_v s));
      Some (advance (set_memory s m))
  | 0x65 =>
      do bs <- memcpy_from (memory s) (reg_i s) (Z.to_nat (x + 1));
      Some (advance (set_regs_v s (poke_bytes (regs_v s) 0 bs)))
  | _ => Some (report s (UnknownF opcode))
  end.

Definition exec (rand : Z) (s : State) (opcode : Z) : option Outcome :=
  let x := nibble2 opcode in
  let y := nibble3 opcode in
  let nn := imm_nn opcode in
  let nnn := imm_nnn opcode in
  match nibble1 opcode with
  | 0x0 =>
      match opcode with
      | 0x00E0 => Some (advance (instruction_clear_video s))
      | 0x00EE =>
          do '(address, s) <- state_pop_from_stack s;
          Some (stay (set_pc s address))
      | _ => Some (report s TodoCall)
      end
  | 0x1 => Some (stay (set_pc s nnn))
  | 0x2 =>
      (* Push the counter for the proceeding instruction *)
      do s <- state_push_to_stack s (u16 (pc s + 0x2));
      Some (stay (set_pc s nnn))
  | 0x3 => Some (skip_if s (reg s x =? nn))
  | 0x4 => Some (skip_if s (negb (reg s x =? nn)))
  | 0x5 => Some (skip_if s (reg s x =? reg s y))
  | 0x6 => Some (advance (set_reg s x nn))
  | 0x7 => Some (advance (set_reg s x (u8 (reg s x + nn))))
  | 0x8 => Some (exec_8 s opcode)
  | 0x9 => Some (skip_if s (negb (reg s x =? reg s y)))
  | 0xA => Some (advance (set_reg_i s nnn))
  | 0xC => Some (advance (set_reg s x (u8 (Z.land rand nn))))
  | 0xD =>
      do s <- instruction_draw_sprite s x y (nibble4 opcode);
      Some (advance s)
  | 0xE => Some (exec_E s opcode)
  | 0xF => exec_F s opcode
  | _ => Some (report s (UnknownOpcode opcode))
  end.

Definition state_step (rand : Z) (s : State) : option (State * list Diag) :=
  (* Reached end of program, or there are less than 2 bytes to read *)
  if MEMORY_SIZE - 1 <=? pc s then
    (* [state->end_of_program;] evaluates the field and discards it *)
    Some (s, [])
  else
    do opcode <- fetch s;
    do '(s, should_step, out) <- exec rand s opcode;
    Some (if should_step then set_pc s (u16 (pc s + 2)) else s, out).

(** [n] steps in a row, [rand n] being the value of [rand()] at step [n]. *)
Fixpoint state_steps (rand : nat -> Z) (n : nat) (s : State)
  : option (State * list Diag) :=
  match n with
  | O => Some (s, [])
  | S n' =>
      do '(s, out) <- state_step (rand O) s;
      do '(s, out') <- state_steps (fun k => rand (S k)) n' s;
      Some (s, out ++ out')
  end.

(** ** The driver's side of the state

    [main] changes the state between two steps in two ways only: key events
    set the input latch and the 60 Hz tick decrements the timers. *)

(** [SDL_KEYDOWN], with [k] the result of [get_chip8_keycode_from_sdl]. *)
Definition key_down (s : State) (k : Z) : State := set_keycode s (u8 k).

(** [SDL_KEYUP]. *)
Definition key_up (s : State) : State := set_keycode s 16.

Definition tick_timers (s : State) : State :=
  let s := if 0 <? delay_timer s
           then set_delay_timer s (u8 (delay_timer s - 1)) else s in
  if 0 <? sound_timer s
  then set_sound_timer s (u8 (sound_timer s - 1)) else s.

(** The pixel test of [convert_video_to_sdl]: column [x] of a row is lit
    when [(row & mask) == mask] for [mask = (1ULL << 63) >> x]. *)
Definition pixel_on (row x : Z) : bool :=
  let mask := Z.shiftr (u64 (Z.shiftl 1 63)) x in
  Z.land row mask =? mask.

(** ** Running a ROM from the initial state *)

(** The state after [n] steps of the ROM [rom] ([rand()] returning 0). *)
Definition run (rom : list Z) (n : nat) : option State :=
  do s <- load_rom state_init rom;
  do '(s, _) <- state_steps (fun _ => 0) n s;
  Some s.

(** The glyph of digit [d] in [FONTS]: five bytes from offset [5 * d]. *)
Definition glyph (d : Z) : list Z := take 5 (drop (Z.to_nat (5 * d)) FONTS).

(** The 80 bytes of the font table region of a memory. *)
Definition font_region (m : list Z) : list Z :=
  take (length FONTS) (drop (Z.to_nat FONT_START) m).

(** ** The memory footprint of an instruction *)

(** Call and return, the two opcodes that use the call stack. *)
Definition touches_stack (opcode : Z) : bool :=
  (nibble1 opcode =? 0x2) || (opcode =? 0x00EE).

(** The number of bytes an opcode stores at [memory[I]] and after:
    three for Fx33, [x + 1] for Fx55, none for the others. *)
Definition store_length (opcode : Z) : Z :=
  if (nibble1 opcode =? 0xF) && (imm_nn opcode =? 0x33) then 3
  else if (nibble1 opcode =? 0xF) && (imm_nn opcode =? 0x55)
       then nibble2 opcode + 1
       else 0.

(** Index [i] lies among the [n] bytes from address [a] on. *)
Definition inside (a n : Z) (i : nat) : Prop :=
  (Z.to_nat a <= i < Z.to_nat a + Z.to_nat n)%nat.

(** ** Well-formed states: every field within its C type *)

Definition is_u8 (z : Z) : bool := (0 <=? z) && (z <? 0x100).
Definition is_u16 (z : Z) : bool := (0 <=? z) && (z <? 0x10000).
Definition is_u64 (z : Z) : bool := (0 <=? z) && (z <? 0x10000000000000000).

Definition wf_state (s : State) : bool :=
  (Z.of_nat (length (memory s)) =? MEMORY_SIZE)
  && (Z.of_nat (length (regs_v s)) =? 16)
  && (Z.of_nat (length (video_buffer s)) =? 32)
  && forallb is_u8 (memory s)
  && forallb is_u8 (regs_v s)
  && forallb is_u64 (video_buffer s)
  && is_u8 (delay_timer s) && is_u8 (sound_timer s) && is_u8 (keycode s)
  && is_u16 (pc s) && is_u16 (sp s) && is_u16 (reg_i s).

(** What [wf_state] decides, as a proposition. *)
Record WellFormed (s : State) : Prop := {
  wf_memory_length : length (memory s) = Z.to_nat MEMORY_SIZE;
  wf_regs_length : length (regs_v s) = 16%nat;
  wf_video_length : length (video_buffer s) = 32%nat;
  wf_memory_bytes : forall a v, memory s !! a = Some v -> 0 <= v < 0x100;
  wf_regs_bytes : forall i v, regs_v s !! i = Some v -> 0 <= v < 0x100;
  wf_keycode : 0 <= keycode s < 0x100;
  wf_pc : 0 <= pc s < 0x10000;
  wf_sp : 0 <= sp s < 0x10000;
  wf_reg_i : 0 <= reg_i s < 0x10000
}.

(** ** The rest of the driver: keypad, events and rendering *)

(** The key codes [get_chip8_keycode_from_sdl] tells apart.  Their values
    come from SDL's headers; the [switch] only needs the sixteen named
    constants to be distinct from each other and from every other code. *)
Inductive SDL_Keycode : Type :=
| SDLK_1 | SDLK_2 | SDLK_3 | SDLK_4
| SDLK_q | SDLK_w | SDLK_e | SDLK_r
| SDLK_a | SDLK_s | SDLK_d | SDLK_f
| SDLK_z | SDLK_x | SDLK_c | SDLK_v
| SDLK_other (code : Z).

Definition get_chip8_keycode_from_sdl (keycode : SDL_Keycode) : Z :=
  match keycode with
  | SDLK_1 => 0x1
  | SDLK_2 => 0x2
  | SDLK_3 => 0x3
  | SDLK_4 => 0xC
  | SDLK_q => 0x4
  | SDLK_w => 0x5
  | SDLK_e => 0x6
  | SDLK_r => 0xD
  | SDLK_a => 0x7
  | SDLK_s => 0x8
  | SDLK_d => 0x9
  | SDLK_f => 0xE
  | SDLK_z => 0xA
  | SDLK_x => 0x0
  | SDLK_c => 0xB
  | SDLK_v => 0xF
  | SDLK_other _ =>
      (* Signifies no key is being pressed *)
      16
  end.

(** The events the loop of [main] reacts to. *)
Inductive Event : Type :=
| SDL_KEYDOWN (sym : SDL_Keycode)
| SDL_KEYUP
| SDL_QUIT
| SDL_other_event.

(** One event of the polling loop: the state and [is_running]. *)
Definition handle_event (sr : State * bool) (e : Event) : State * bool :=
  let '(s, is_running) := sr in
  match e with
  | SDL_KEYDOWN sym => (key_down s (get_chip8_keycode_from_sdl sym), is_running)
  | SDL_KEYUP => (key_up s, is_running)
  | SDL_QUIT => (s, false)
  | SDL_other_event => (s, is_running)
  end.

(** [while (SDL_PollEvent(&event)) ...] on the queued events. *)
Definition poll_events (s : State) (events : list Event) : State * bool :=
  fold_left handle_event events (s, true).

(** [if (c) result[i] = v;] *)
Definition store_if (c : bool) (i : nat) (v : Z) (result : list Z)
  : list Z :=
  if c then <[i := v]> result else result.

(** The inner loop of [convert_video_to_sdl] from column [x] on, [todo]
    columns being left. *)
Fixpoint convert_row (row : Z) (y : nat) (todo x : nat) (result : list Z)
  : list Z :=
  match todo with
  | O => result
  | S todo' =>
      convert_row row y todo' (S x)
        (store_if (pixel_on row (Z.of_nat x)) (y * 64 + x) 0xFFFFFFFF result)
  end.

(** The outer loop from row [y] on, [todo] rows being left.  The caller
    passes the 32 rows of the state; a row missing from a shorter [video]
    reads as 0 here. *)
Fixpoint convert_rows (video : list Z) (todo y : nat) (result : list Z)
  : list Z :=
  match todo with
  | O => result
  | S todo' =>
      let row := default 0 (video !! y) in
      convert_rows video todo' (S y) (convert_row row y 64 0 result)
  end.

(** The pixel array handed to SDL ([calloc] succeeding). *)
Definition convert_video_to_sdl (video : list Z) : list Z :=
  convert_rows video 32 0 (replicate (64 * 32) 0).

(** The condition tested by a skip instruction, if [opcode] is one. *)
Definition skip_condition (s : State) (opcode : Z) : option bool :=
  let x := nibble2 opcode in
  let y := nibble3 opcode in
  let nn := imm_nn opcode in
  if nibble1 opcode =? 0x3 then Some (reg s x =? nn)
  else if nibble1 opcode =? 0x4 then Some (negb (reg s x =? nn))
  else if nibble1 opcode =? 0x5 then Some (reg s x =? reg s y)
  else if nibble1 opcode =? 0x9 then Some (negb (reg s x =? reg s y))
  else if (nibble1 opcode =? 0xE) && (nn =? 0x9E)
       then Some (keycode s =? reg s x)
  else if (nibble1 opcode =? 0xE) && (nn =? 0xA1)
       then Some (negb (keycode s =? reg s x))
  else None.

(** ** Well-formed states, as a proposition *)

Definition byte_range (v : Z) : Prop := 0 <= v < 0x100.
Definition word_range (v : Z) : Prop := 0 <= v < 0x10000.
Definition row_range (v : Z) : Prop := 0 <= v < 0x10000000000000000.

(** Every field of the state holds a value of its C type, and the three
    buffers have the sizes [state_init] gives them. *)
Record Valid (s : State) : Prop := {
  valid_memory_length : length (memory s) = Z.to_nat MEMORY_SIZE;
  valid_regs_length : length (regs_v s) = 16%nat;
  valid_video_length : length (video_buffer s) = 32%nat;
  valid_memory : Forall byte_range (memory s);
  valid_regs : Forall byte_range (regs_v s);
  valid_video : Forall row_range (video_buffer s);
  valid_delay_timer : byte_range (delay_timer s);
  valid_sound_timer : byte_range (sound_timer s);
  valid_keycode : byte_range (keycode s);
  valid_pc : word_range (pc s);
  valid_sp : word_range (sp s);
  valid_reg_i : word_range (reg_i s)
}.

(** One turn of the loop of [main], without rendering and sound: the
    queued events, the timers when a frame time has passed ([tick]), one
    step, and the test of [end_of_program].  The result has the state,
    [is_running] and what the step printed. *)
Definition main_iteration
    (events : list Event) (tick : bool) (rand : Z) (s : State)
  : option (State * bool * list Diag) :=
  let '(s, is_running) := poll_events s events in
  (* May have changed after processing events. *)
  if negb is_running then Some (s, false, [])
  else
    let s := if tick then tick_timers s else s in
    do '(s, out) <- state_step rand s;
    Some (s, negb (end_of_program s), out).

(** The opcodes that set a timer: Fx15 and Fx18. *)
Definition writes_delay_timer (opcode : Z) : bool :=
  (nibble1 opcode =? 0xF) && (imm_nn opcode =? 0x15).

Definition writes_sound_timer (opcode : Z) : bool :=
  (nibble1 opcode =? 0xF) && (imm_nn opcode =? 0x18).

(** * Properties *)

(** ** Tactics *)

(** Case analysis on the scrutinee of a [match] of the goal. *)
Ltac break_match :=
  match goal with
  | |- context [match ?x with _ => _ end] => destruct x
  end.

(** Case analysis along the [switch] of an equation [match ... = _ -> _]:
    only the scrutinee at the head of the left-hand side is split. *)
Ltac break_switch :=
  repeat match goal with
         | |- (match ?x with _ => _ end = _) -> _ => destruct x
         end.

(** Unfolding one [bind] of a hypothesis whose computation succeeded. *)
Ltac bind_inv H x E :=
  match type of H with
  | bind ?e _ = Some _ =>
      destruct e as [x|] eqn:E; [cbn [bind] in H | discriminate H]
  end.

(** ** Basic facts about the model *)

Lemma u16_small (z : Z) : 0 <= z < 0x10000 -> u16 z = z.
Proof. intros H. unfold u16. apply Z.mod_small. exact H. Qed.

Lemma u8_small (z : Z) : 0 <= z < 0x100 -> u8 z = z.
Proof. intros H. unfold u8. apply Z.mod_small. exact H. Qed.

Lemma load_Some_nonneg (m : list Z) (a v : Z) : load m a = Some v -> 0 <= a.
Proof.
  unfold load. destruct (a <? 0) eqn:E; [discriminate|].
  intros _. apply Z.ltb_ge in E. exact E.
Qed.

Lemma fetch_pc_nonneg (s : State) (opcode : Z) :
  fetch s = Some opcode -> 0 <= pc s.
Proof.
  unfold fetch. destruct (load (memory s) (pc s)) eqn:E; [|discriminate].
  intros _. eapply load_Some_nonneg. exact E.
Qed.

(** Below the end of memory, a step decodes and runs the opcode at [pc]. *)
Lemma state_step_fetch (rand : Z) (s : State) (opcode : Z) :
  pc s < MEMORY_SIZE - 1 ->
  fetch s = Some opcode ->
  state_step rand s =
    do '(s', should_step, out) <- exec rand s opcode;
    Some (if should_step then set_pc s' (u16 (pc s' + 2)) else s', out).
Proof.
  intros Hpc Hf. unfold state_step.
  destruct (MEMORY_SIZE - 1 <=? pc s) eqn:E.
  - apply Z.leb_le in E. lia.
  - rewrite Hf. reflexivity.
Qed.

(** At the end of memory, a step returns the state as it was. *)
Lemma state_step_end_of_memory (rand : Z) (s : State) :
  MEMORY_SIZE - 1 <= pc s -> state_step rand s = Some (s, []).
Proof.
  intros H. unfold state_step.
  destruct (MEMORY_SIZE - 1 <=? pc s) eqn:E; [reflexivity|].
  apply Z.leb_gt in E. lia.
Qed.

(** A step that returns its own state can be repeated for ever. *)
Lemma state_steps_fixpoint (s : State) :
  (forall rand, state_step rand s = Some (s, [])) ->
  forall n rand, state_steps rand n s = Some (s, []).
Proof.
  intros Hstep n. induction n as [|n IH]; intros rand; simpl.
  - reflexivity.
  - rewrite Hstep. simpl. rewrite IH. reflexivity.
Qed.

(** The register fields of an opcode are 4-bit values. *)
Lemma nibble2_range (opcode : Z) : 0 <= nibble2 opcode < 16.
Proof.
  unfold nibble2. rewrite Z.shiftr_land.
  change (Z.shiftr 0xF00 8) with (Z.ones 4).
  rewrite Z.land_ones by lia.
  pose proof (Z.mod_pos_bound (Z.shiftr opcode 8) (2 ^ 4)) as Hb.
  unfold u8. rewrite Z.mod_small; lia.
Qed.

Lemma nibble3_range (opcode : Z) : 0 <= nibble3 opcode < 16.
Proof.
  unfold nibble3. rewrite Z.shiftr_land.
  change (Z.shiftr 0xF0 4) with (Z.ones 4).
  rewrite Z.land_ones by lia.
  pose proof (Z.mod_pos_bound (Z.shiftr opcode 4) (2 ^ 4)) as Hb.
  unfold u8. rewrite Z.mod_small; lia.
Qed.

Lemma is_u8_spec (z : Z) : is_u8 z = true <-> 0 <= z < 0x100.
Proof. unfold is_u8. rewrite andb_true_iff, Z.leb_le, Z.ltb_lt. tauto. Qed.

Lemma is_u16_spec (z : Z) : is_u16 z = true <-> 0 <= z < 0x10000.
Proof. unfold is_u16. rewrite andb_true_iff, Z.leb_le, Z.ltb_lt. tauto. Qed.

Lemma forallb_lookup (f : Z -> bool) (l : list Z) (i : nat) (v : Z) :
  forallb f l = true -> l !! i = Some v -> f v = true.
Proof.
  intros Hall Hl. rewrite forallb_forall in Hall. apply Hall.
  apply list_elem_of_In. eapply list_elem_of_lookup_2. exact Hl.
Qed.

Lemma wf_state_WellFormed (s : State) : wf_state s = true -> WellFormed s.
Proof.
  unfold wf_state. rewrite !andb_true_iff, !Z.eqb_eq.
  rewrite !is_u16_spec, !is_u8_spec.
  intros [[[[[[[[[[[Hm Hr] Hv] Hmb] Hrb] Hvb] Hd] Hs] Hk] Hpc] Hsp] Hi].
  constructor; try assumption.
  - rewrite <- Hm. symmetry. apply Nat2Z.id.
  - apply Nat2Z.inj. exact Hr.
  - apply Nat2Z.inj. exact Hv.
  - intros a v Hl. apply is_u8_spec.
    eapply forallb_lookup; [exact Hmb | exact Hl].
  - intros i v Hl. apply is_u8_spec.
    eapply forallb_lookup; [exact Hrb | exact Hl].
Qed.

(** Registers of a well-formed state hold bytes. *)
Lemma reg_range (s : State) (i : Z) : WellFormed s -> 0 <= reg s i < 0x100.
Proof.
  intros W. unfold reg.
  destruct (regs_v s !! Z.to_nat i) as [v|] eqn:E; simpl.
  - eapply wf_regs_bytes; eassumption.
  - lia.
Qed.

(** Reading back the register just written. *)
Lemma reg_set_reg_eq (s : State) (i v : Z) :
  WellFormed s -> 0 <= i < 16 -> reg (set_reg s i v) i = v.
Proof.
  intros W Hi. unfold reg, set_reg. simpl.
  rewrite list_lookup_insert_eq; [reflexivity|].
  rewrite (wf_regs_length s W). lia.
Qed.

Lemma reg_set_reg_ne (s : State) (i j v : Z) :
  0 <= i -> 0 <= j -> i <> j -> reg (set_reg s i v) j = reg s j.
Proof.
  intros Hi Hj Hne. unfold reg, set_reg. simpl.
  rewrite list_lookup_insert_ne; [reflexivity|]. lia.
Qed.

(** ** Unrecognised leading nibble *)

(** An opcode is a 16-bit value, so its leading nibble is one of 0..F; of
    these, 0xB alone has no [case] in the dispatch. *)
Lemma fetch_range (s : State) (opcode : Z) :
  fetch s = Some opcode -> 0 <= opcode < 0x10000.
Proof.
  unfold fetch. destruct (load _ (pc s)) as [hi|]; [|discriminate].
  destruct (load _ (pc s + 1)) as [lo|]; [|discriminate].
  cbn [bind]. intros [= <-]. unfold u16. apply Z.mod_pos_bound. lia.
Qed.

Lemma nibble1_range (opcode : Z) :
  0 <= opcode < 0x10000 -> 0 <= nibble1 opcode < 16.
Proof.
  intros H. unfold nibble1. rewrite Z.shiftr_div_pow2 by lia.
  assert (0 <= opcode / 2 ^ 12 < 16).
  { split; [apply Z.div_pos; lia|]. apply Z.div_lt_upper_bound; lia. }
  rewrite u8_small; lia.
Qed.

Lemma nibble_without_case_is_B (s : State) (opcode : Z) :
  fetch s = Some opcode ->
  ~ In (nibble1 opcode)
       [0x0; 0x1; 0x2; 0x3; 0x4; 0x5; 0x6; 0x7; 0x8; 0x9; 0xA;
        0xC; 0xD; 0xE; 0xF] ->
  nibble1 opcode = 0xB.
Proof.
  intros Hf Hn. apply fetch_range in Hf. apply nibble1_range in Hf.
  simpl in Hn. lia.
Qed.

(** C10: an opcode whose leading nibble is 0xB falls to the [default] of the
    dispatch: the step prints the opcode, leaves registers, index register,
    memory, display, timers and stack pointer as they were and advances the
    program counter by 2. *)
Theorem opcode_B_only_advances_pc (rand : Z) (s : State) (opcode : Z) :
  pc s < MEMORY_SIZE - 1 ->
  fetch s = Some opcode ->
  nibble1 opcode = 0xB ->
  state_step rand s = Some (set_pc s (pc s + 2), [UnknownOpcode opcode]).
Proof.
  intros Hpc Hf Hn.
  rewrite (state_step_fetch _ _ _ Hpc Hf).
  unfold exec. rewrite Hn. cbv beta iota zeta. unfold report, bind.
  cbv beta iota.
  rewrite u16_small; [reflexivity|].
  apply fetch_pc_nonneg in Hf. unfold MEMORY_SIZE in Hpc. lia.
Qed.

Lemma opcode_B_only_advances_pc_witness :
  exists s,
    run [0xB2; 0x34] 0 = Some s /\
    state_step 0 s = Some (set_pc s (pc s + 2), [UnknownOpcode 0xB234]).
Proof.
  eexists. split; [vm_compute; reflexivity|].
  apply opcode_B_only_advances_pc; vm_compute; reflexivity.
Defined.

(** ** Waiting for a key (Fx0A) *)

Section WaitForKey.

Variables (s : State) (opcode : Z).
Hypothesis Hpc : pc s < MEMORY_SIZE - 1.
Hypothesis Hfetch : fetch s = Some opcode.
Hypothesis Hfamily : nibble1 opcode = 0xF.
Hypothesis Hlow : imm_nn opcode = 0x0A.

Lemma wait_key_blocked (rand : Z) :
  keycode s = 16 -> state_step rand s = Some (s, []).
Proof.
  intros Hk. rewrite (state_step_fetch _ _ _ Hpc Hfetch).
  unfold exec. rewrite Hfamily. cbv beta iota zeta.
  unfold exec_F. rewrite Hlow. cbv beta iota zeta.
  rewrite Hk. reflexivity.
Qed.

Lemma wait_key_pressed (rand : Z) :
  keycode s <> 16 ->
  state_step rand s =
    Some (set_pc (set_reg s (nibble2 opcode) (keycode s)) (pc s + 2), []).
Proof.
  intros Hk. rewrite (state_step_fetch _ _ _ Hpc Hfetch).
  unfold exec. rewrite Hfamily. cbv beta iota zeta.
  unfold exec_F. rewrite Hlow. cbv beta iota zeta.
  destruct (keycode s =? 16) eqn:E.
  - apply Z.eqb_eq in E. contradiction.
  - simpl. rewrite u16_small; [reflexivity|].
    pose proof (fetch_pc_nonneg _ _ Hfetch). unfold MEMORY_SIZE in Hpc. lia.
Qed.

End WaitForKey.

(** C7: with the no-key sentinel 16 in the input latch, a step on Fx0A
    returns the very same state (program counter and registers included),
    so any number of further steps run the same instruction again; once the
    latch holds a key [k] of 0..15, the next step stores [k] in Vx and moves
    the program counter forward by exactly 2, changing nothing else. *)
Theorem wait_for_key_blocks_until_pressed
    (rand : nat -> Z) (n : nat) (s : State) (opcode k : Z) :
  wf_state s = true ->
  pc s < MEMORY_SIZE - 1 ->
  fetch s = Some opcode ->
  nibble1 opcode = 0xF ->
  imm_nn opcode = 0x0A ->
  keycode s = 16 ->
  0 <= k <= 15 ->
  state_steps rand n s = Some (s, []) /\
  exists s',
    state_step (rand n) (key_down s k) = Some (s', []) /\
    reg s' (nibble2 opcode) = k /\
    pc s' = pc s + 2 /\
    s' = set_pc (set_reg (key_down s k) (nibble2 opcode) k) (pc s + 2).
Proof.
  intros Hwf Hpc Hf Hn1 Hnn Hk Hrange. split.
  - apply state_steps_fixpoint. intros r.
    eapply wait_key_blocked; eassumption.
  - assert (Hu : u8 k = k) by (apply u8_small; lia).
    assert (Hs : key_down s k = set_keycode s k)
      by (unfold key_down; rewrite Hu; reflexivity).
    rewrite Hs.
    eexists. split; [|split; [|split; [|reflexivity]]].
    + rewrite (wait_key_pressed (set_keycode s k) opcode Hpc Hf Hn1 Hnn).
      * reflexivity.
      * simpl. lia.
    + apply wf_state_WellFormed in Hwf.
      assert (W : WellFormed (set_keycode s k)).
      { destruct Hwf. constructor; simpl; try assumption. lia. }
      change (reg (set_reg (set_keycode s k) (nibble2 opcode) k)
                  (nibble2 opcode) = k).
      apply reg_set_reg_eq; [exact W | apply nibble2_range].
    + reflexivity.
Qed.

Lemma wait_for_key_blocks_until_pressed_witness :
  exists s,
    run [0xF3; 0x0A] 0 = Some s /\
    state_steps (fun _ => 0) 7 s = Some (s, []) /\
    exists s',
      state_step 0 (key_down s 9) = Some (s', []) /\
      reg s' 3 = 9 /\ pc s' = 0x202.
Proof.
  eexists. split; [vm_compute; reflexivity|].
  match goal with |- context [state_steps _ _ ?s] =>
    destruct (wait_for_key_blocks_until_pressed (fun _ => 0) 7 s 0xF30A 9)
      as [Hblock [s' [Hstep [Hreg [Hpc _]]]]]
  end.
  - vm_compute; reflexivity.
  - vm_compute; reflexivity.
  - vm_compute; reflexivity.
  - vm_compute; reflexivity.
  - vm_compute; reflexivity.
  - vm_compute; reflexivity.
  - lia.
  - split; [exact Hblock|].
    exists s'. split; [exact Hstep|]. split; [exact Hreg | exact Hpc].
Defined.

(** ** Decimal digits (Fx33) *)

Lemma store_in_range (m : list Z) (a v : Z) :
  0 <= a < Z.of_nat (length m) -> store m a v = Some (<[Z.to_nat a := v]> m).
Proof.
  intros H. unfold store.
  destruct (0 <=? a) eqn:E1; [|apply Z.leb_gt in E1; lia].
  destruct (a <? Z.of_nat (length m)) eqn:E2; [|apply Z.ltb_ge in E2; lia].
  reflexivity.
Qed.

Lemma load_insert_eq (m : list Z) (a v : Z) :
  0 <= a < Z.of_nat (length m) -> load (<[Z.to_nat a := v]> m) a = Some v.
Proof.
  intros H. unfold load.
  destruct (a <? 0) eqn:E; [apply Z.ltb_lt in E; lia|].
  apply list_lookup_insert_eq. lia.
Qed.

Lemma load_insert_ne (m : list Z) (a b v : Z) :
  0 <= a -> a <> b -> load (<[Z.to_nat a := v]> m) b = load m b.
Proof.
  intros Ha Hne. unfold load.
  destruct (b <? 0) eqn:E; [reflexivity|].
  apply Z.ltb_ge in E. apply list_lookup_insert_ne. lia.
Qed.

(** The place-value identity of the three digits. *)
Lemma decimal_digits_value (v : Z) :
  100 * (v / 100) + 10 * ((v / 10) mod 10) + v mod 10 = v.
Proof.
  pose proof (Z.div_mod v 10 ltac:(lia)) as H1.
  pose proof (Z.div_mod (v / 10) 10 ltac:(lia)) as H2.
  rewrite Z.div_div in H2 by lia. change (10 * 10) with 100 in H2. lia.
Qed.

(** C9: for a register value [v] of 0..255, Fx33 stores [v / 100] at
    [memory[I]], [(v / 10) mod 10] at [memory[I+1]] and [v mod 10] at
    [memory[I+2]]; the three digits give [v] back by place value; every
    other byte of memory, and every other field but the program counter
    (advanced by 2), is as before. *)
Theorem decimal_digits_three_bytes (rand : Z) (s : State) (opcode v : Z) :
  pc s < MEMORY_SIZE - 1 ->
  fetch s = Some opcode ->
  nibble1 opcode = 0xF ->
  imm_nn opcode = 0x33 ->
  reg s (nibble2 opcode) = v ->
  0 <= v <= 255 ->
  0 <= reg_i s ->
  reg_i s + 2 < Z.of_nat (length (memory s)) ->
  exists m',
    state_step rand s = Some (set_pc (set_memory s m') (pc s + 2), []) /\
    load m' (reg_i s) = Some (v / 100) /\
    load m' (reg_i s + 1) = Some ((v / 10) mod 10) /\
    load m' (reg_i s + 2) = Some (v mod 10) /\
    100 * (v / 100) + 10 * ((v / 10) mod 10) + v mod 10 = v /\
    length m' = length (memory s) /\
    forall a,
      a <> reg_i s -> a <> reg_i s + 1 -> a <> reg_i s + 2 ->
      load m' a = load (memory s) a.
Proof.
  intros Hpc Hf Hn1 Hnn Hv Hrange Hi0 Hi2.
  set (i := reg_i s) in *. set (m := memory s) in *.
  assert (H100 : u8 (v / 100) = v / 100).
  { apply u8_small. split; [apply Z.div_pos; lia|].
    apply Z.div_lt_upper_bound; lia. }
  assert (H10 : u8 ((v / 10) mod 10) = (v / 10) mod 10).
  { apply u8_small. pose proof (Z.mod_pos_bound (v / 10) 10). lia. }
  assert (H1 : u8 (v mod 10) = v mod 10).
  { apply u8_small. pose proof (Z.mod_pos_bound v 10). lia. }
  exists (<[Z.to_nat (i + 2) := v mod 10]>
            (<[Z.to_nat (i + 1) := (v / 10) mod 10]>
               (<[Z.to_nat i := v / 100]> m))).
  split; [|split; [|split; [|split; [|split; [|split]]]]].
  - rewrite (state_step_fetch _ _ _ Hpc Hf).
    unfold exec. rewrite Hn1. cbv beta iota zeta.
    unfold exec_F. rewrite Hnn. cbv beta iota zeta.
    unfold instruction_decimal_digits. rewrite Hv, H100, H10, H1.
    fold i. fold m.
    rewrite store_in_range by lia. cbn [bind].
    rewrite store_in_range by (rewrite length_insert; lia). cbn [bind].
    rewrite store_in_range by (rewrite !length_insert; lia). cbn [bind].
    unfold advance. cbv beta iota. simpl pc.
    rewrite u16_small; [reflexivity|].
    pose proof (fetch_pc_nonneg _ _ Hf). unfold MEMORY_SIZE in Hpc. lia.
  - rewrite load_insert_ne by lia. rewrite load_insert_ne by lia.
    apply load_insert_eq. lia.
  - rewrite load_insert_ne by lia.
    apply load_insert_eq. rewrite length_insert. lia.
  - apply load_insert_eq. rewrite !length_insert. lia.
  - apply decimal_digits_value.
  - rewrite !length_insert. reflexivity.
  - intros a Ha0 Ha1 Ha2.
    rewrite !load_insert_ne by lia. reflexivity.
Qed.

Lemma decimal_digits_three_bytes_witness :
  exists s,
    run [0x60; 254; 0xA3; 0x00; 0xF0; 0x33] 2 = Some s /\
    exists m',
      state_step 0 s = Some (set_pc (set_memory s m') 0x206, []) /\
      load m' 0x300 = Some 2 /\
      load m' 0x301 = Some 5 /\
      load m' 0x302 = Some 4.
Proof.
  eexists. split; [vm_compute; reflexivity|].
  match goal with |- context [state_step _ ?s] =>
    destruct (decimal_digits_three_bytes 0 s 0xF033 254)
      as [m' [Hstep [H0 [H1 [H2 _]]]]]
  end.
  - vm_compute; reflexivity.
  - vm_compute; reflexivity.
  - vm_compute; reflexivity.
  - vm_compute; reflexivity.
  - vm_compute; reflexivity.
  - lia.
  - vm_compute; discriminate.
  - vm_compute; reflexivity.
  - exists m'. split; [exact Hstep|].
    split; [exact H0|]. split; [exact H1 | exact H2].
Defined.

(** ** The call stack: push then pop *)

Lemma testbit_above (a k n : Z) :
  0 <= k -> 0 <= a < 2 ^ k -> k <= n -> Z.testbit a n = false.
Proof.
  intros Hk Ha Hn. rewrite <- (Z.mod_small a (2 ^ k)) by exact Ha.
  apply Z.mod_pow2_bits_high. lia.
Qed.

(** Equality of two integers bit by bit: the goal becomes an equation
    between booleans built from the bits of the operands at index [n]. *)
Ltac bitwise n Hn :=
  apply Z.bits_inj'; intros n Hn;
  repeat first
    [ rewrite Z.land_spec | rewrite Z.lor_spec | rewrite Z.lxor_spec
    | rewrite Z.shiftl_spec by lia | rewrite Z.shiftr_spec by lia
    | rewrite Z.testbit_mod_pow2 by lia
    | rewrite Z.testbit_ones_nonneg by lia ].

Ltac split_index n k E :=
  destruct (n <? k) eqn:E; [apply Z.ltb_lt in E | apply Z.ltb_ge in E].

Section ByteSwap.

Variable a : Z.
Hypothesis Ha : 0 <= a < 0x10000.

(** The byte [memcpy] puts at [sp] is the high byte of [a]. *)
Lemma flipped_low_byte : Z.land (flip_endianness a) 0xFF = Z.shiftr a 8.
Proof.
  unfold flip_endianness, u16.
  change 0x10000 with (2 ^ 16). change 0xFF with (Z.ones 8).
  bitwise n Hn. split_index n 8 E.
  - rewrite (Z.testbit_neg_r a (n - 8)) by lia.
    replace (n <? 16) with true by (symmetry; apply Z.ltb_lt; lia).
    rewrite andb_true_r. reflexivity.
  - rewrite (testbit_above a 16 (n + 8)) by lia.
    rewrite andb_false_r. reflexivity.
Qed.

(** The byte at [sp + 1] is the low byte of [a]. *)
Lemma flipped_high_byte : Z.shiftr (flip_endianness a) 8 = Z.land a 0xFF.
Proof.
  unfold flip_endianness, u16.
  change 0x10000 with (2 ^ 16). change 0xFF with (Z.ones 8).
  bitwise n Hn. replace (n + 8 - 8) with n by lia. split_index n 8 E.
  - replace (n + 8 <? 16) with true by (symmetry; apply Z.ltb_lt; lia).
    rewrite (testbit_above a 16 (n + 8 + 8)) by lia.
    rewrite orb_false_r, andb_true_r. reflexivity.
  - replace (n + 8 <? 16) with false by (symmetry; apply Z.ltb_ge; lia).
    rewrite andb_false_r. reflexivity.
Qed.

(** What [state_pop_from_stack] reads from these two bytes is [a]. *)
Lemma bytes_joined :
  u16 (Z.lor (Z.shiftl (Z.shiftr a 8) 8) (Z.land a 0xFF)) = a.
Proof.
  unfold u16. change 0x10000 with (2 ^ 16). change 0xFF with (Z.ones 8).
  bitwise n Hn. replace (n - 8 + 8) with n by lia. split_index n 16 E.
  - split_index n 8 E8.
    + rewrite (Z.testbit_neg_r _ (n - 8)) by lia.
      rewrite andb_true_r. reflexivity.
    + rewrite Z.shiftr_spec by lia. replace (n - 8 + 8) with n by lia.
      rewrite andb_false_r, orb_false_r. reflexivity.
  - rewrite (testbit_above a 16 n) by lia. reflexivity.
Qed.

End ByteSwap.

Lemma memcpy_to_two (m : list Z) (a b0 b1 : Z) :
  0 <= a -> a + 2 <= Z.of_nat (length m) ->
  memcpy_to m a [b0; b1] =
    Some (<[S (Z.to_nat a) := b1]> (<[Z.to_nat a := b0]> m)).
Proof.
  intros H0 H2. unfold memcpy_to, in_bounds.
  destruct (0 <=? a) eqn:E1; [|apply Z.leb_gt in E1; lia].
  change (Z.of_nat (length [b0; b1])) with 2.
  destruct (a + 2 <=? Z.of_nat (length m)) eqn:E2;
    [|apply Z.leb_gt in E2; lia].
  reflexivity.
Qed.

(** C8: for a 16-bit address [A] and a state whose stack pointer leaves room
    for one slot inside memory, pushing [A] stores it at the stack pointer
    (high byte first) and advances the pointer by 2; popping right after
    returns [A] and brings the pointer back to its value before the push.
    The state after the pop is the first one with the two bytes of the slot
    set to zero. *)
Theorem push_then_pop_returns_address (s : State) (A : Z) :
  0 <= A < 0x10000 ->
  Z.of_nat (length (memory s)) = MEMORY_SIZE ->
  0 <= sp s ->
  sp s + 2 <= MEMORY_SIZE ->
  exists s1 s2,
    state_push_to_stack s A = Some s1 /\
    sp s1 = sp s + 2 /\
    load (memory s1) (sp s) = Some (Z.shiftr A 8) /\
    load (memory s1) (sp s + 1) = Some (Z.land A 0xFF) /\
    state_pop_from_stack s1 = Some (A, s2) /\
    sp s2 = sp s /\
    s2 = set_memory s (<[S (Z.to_nat (sp s)) := 0]>
                         (<[Z.to_nat (sp s) := 0]> (memory s))).
Proof.
  intros HA Hlen Hsp0 Hsp2. unfold MEMORY_SIZE in *.
  set (n := Z.to_nat (sp s)).
  set (m1 := <[S n := Z.land A 0xFF]> (<[n := Z.shiftr A 8]> (memory s))).
  assert (Hpush : state_push_to_stack s A =
                  Some (set_sp (set_memory s m1) (sp s + 2))).
  { unfold state_push_to_stack.
    rewrite memcpy_to_two by lia. cbn [bind].
    rewrite flipped_low_byte, flipped_high_byte by exact HA.
    rewrite (u16_small (sp s + 2)) by lia. reflexivity. }
  assert (Hlen1 : length m1 = length (memory s))
    by (unfold m1; rewrite !length_insert; reflexivity).
  assert (Hhi : load m1 (sp s) = Some (Z.shiftr A 8)).
  { unfold load. destruct (sp s <? 0) eqn:E; [apply Z.ltb_lt in E; lia|].
    fold n. unfold m1. rewrite list_lookup_insert_ne by lia.
    apply list_lookup_insert_eq. lia. }
  assert (Hlo : load m1 (sp s + 1) = Some (Z.land A 0xFF)).
  { unfold load.
    destruct (sp s + 1 <? 0) eqn:E; [apply Z.ltb_lt in E; lia|].
    replace (Z.to_nat (sp s + 1)) with (S n) by lia.
    unfold m1. apply list_lookup_insert_eq. rewrite length_insert. lia. }
  eexists. eexists.
  split; [exact Hpush|]. split; [reflexivity|].
  split; [exact Hhi|]. split; [exact Hlo|].
  assert (Hpop : state_pop_from_stack (set_sp (set_memory s m1) (sp s + 2)) =
    Some (A, set_memory s (<[S n := 0]> (<[n := 0]> (memory s))))).
  { unfold state_pop_from_stack. simpl sp. simpl memory.
    replace (u16 (sp s + 2 - 2)) with (sp s)
      by (rewrite u16_small; lia).
    rewrite Hhi, Hlo. cbn [bind].
    rewrite memcpy_to_two by lia. cbn [bind]. fold n.
    rewrite bytes_joined by exact HA.
    unfold m1. f_equal. f_equal.
    unfold set_memory, set_sp. simpl.
    rewrite (list_insert_insert_ne _ n (S n)) by lia.
    rewrite !list_insert_insert_eq.
    destruct s. reflexivity. }
  split; [exact Hpop|]. split; reflexivity.
Qed.

Lemma push_then_pop_returns_address_witness :
  exists s1 s2,
    state_push_to_stack state_init 0x2AB = Some s1 /\
    sp s1 = 0x54 /\
    state_pop_from_stack s1 = Some (0x2AB, s2) /\
    sp s2 = 0x52.
Proof.
  destruct (push_then_pop_returns_address state_init 0x2AB)
    as [s1 [s2 [Hpush [Hsp1 [_ [_ [Hpop [Hsp2 _]]]]]]]].
  - lia.
  - vm_compute; reflexivity.
  - vm_compute; discriminate.
  - vm_compute; discriminate.
  - exists s1, s2.
    split; [exact Hpush|]. split; [exact Hsp1|].
    split; [exact Hpop | exact Hsp2].
Defined.

(** ** The flags of 8xy4 and 8xy5 *)

Section ArithmeticFlags.

Variables (s : State) (opcode : Z).
Hypothesis Hwf : WellFormed s.
Hypothesis Hx : nibble2 opcode <> 0xF.

(** The two operands are promoted to [int], so [Vx > Vx + Vy] compares
    [Vx] with the sum that has not wrapped, and is never true. *)
Lemma add_flag_always_zero :
  nibble4 opcode = 0x4 ->
  exists s',
    exec_8 s opcode = (s', true, []) /\
    reg s' 0xF = 0.
Proof.
  intros Hn. unfold exec_8. rewrite Hn. cbv beta iota zeta.
  unfold advance. eexists. split; [reflexivity|].
  pose proof (nibble2_range opcode) as Hx16.
  rewrite reg_set_reg_ne by lia.
  rewrite reg_set_reg_eq by (assumption || lia).
  pose proof (reg_range s (nibble3 opcode) Hwf) as Hy.
  destruct (reg s (nibble2 opcode) >?
            reg s (nibble2 opcode) + reg s (nibble3 opcode)) eqn:E;
    [|reflexivity].
  apply Z.gtb_lt in E. lia.
Qed.

(** Likewise [Vx < Vx - Vy] is never true. *)
Lemma sub_flag_always_zero :
  nibble4 opcode = 0x5 ->
  exists s',
    exec_8 s opcode = (s', true, []) /\
    reg s' 0xF = 0.
Proof.
  intros Hn. unfold exec_8. rewrite Hn. cbv beta iota zeta.
  unfold advance. eexists. split; [reflexivity|].
  pose proof (nibble2_range opcode) as Hx16.
  rewrite reg_set_reg_ne by lia.
  rewrite reg_set_reg_eq by (assumption || lia).
  pose proof (reg_range s (nibble3 opcode) Hwf) as Hy.
  destruct (reg s (nibble2 opcode) <?
            reg s (nibble2 opcode) - reg s (nibble3 opcode)) eqn:E;
    [|reflexivity].
  apply Z.ltb_lt in E. lia.
Qed.

End ArithmeticFlags.

(** C1: the ROM [60C8 6164 8014] sets V0 = 200 and V1 = 100 and adds V1 to
    V0.  The sum 300 overflows 8 bits, V0 becomes 300 mod 256 = 44, but VF
    is 0 after the step, where an overflow flag would be 1. *)
Theorem add_overflow_leaves_flag_zero :
  exists s s',
    run [0x60; 200; 0x61; 100; 0x80; 0x14] 2 = Some s /\
    fetch s = Some 0x8014 /\
    reg s 0 = 200 /\ reg s 1 = 100 /\
    state_step 0 s = Some (s', []) /\
    reg s' 0 = (200 + 100) mod 256 /\
    reg s' 0xF = 0 /\
    256 <= reg s 0 + reg s 1.
Proof.
  eexists. eexists.
  split; [vm_compute; reflexivity|].
  split; [vm_compute; reflexivity|].
  split; [vm_compute; reflexivity|].
  split; [vm_compute; reflexivity|].
  split; [vm_compute; reflexivity|].
  split; [vm_compute; reflexivity|].
  split; [vm_compute; reflexivity|].
  vm_compute. discriminate.
Qed.

(** C2: the ROM [6005 6103 8015] sets V0 = 5 and V1 = 3 and subtracts V1
    from V0.  No borrow occurs (5 >= 3), V0 becomes 2, but VF is 0 after
    the step, where the no-borrow flag would be 1. *)
Theorem sub_without_borrow_leaves_flag_zero :
  exists s s',
    run [0x60; 5; 0x61; 3; 0x80; 0x15] 2 = Some s /\
    fetch s = Some 0x8015 /\
    reg s 0 = 5 /\ reg s 1 = 3 /\
    state_step 0 s = Some (s', []) /\
    reg s' 0 = (5 - 3) mod 256 /\
    reg s' 0xF = 0 /\
    reg s 1 <= reg s 0.
Proof.
  eexists. eexists.
  split; [vm_compute; reflexivity|].
  split; [vm_compute; reflexivity|].
  split; [vm_compute; reflexivity|].
  split; [vm_compute; reflexivity|].
  split; [vm_compute; reflexivity|].
  split; [vm_compute; reflexivity|].
  split; [vm_compute; reflexivity|].
  vm_compute. discriminate.
Qed.

(** ** The font glyph of a digit (Fx29) *)

(** Where [state_init] puts the glyph of digit [d]. *)
Lemma glyph_location (d : Z) :
  0 <= d <= 15 ->
  memcpy_from (memory state_init) (FONT_START + 5 * d) 5 = Some (glyph d).
Proof.
  intros Hd.
  assert (H : In d [0; 1; 2; 3; 4; 5; 6; 7; 8; 9; 10; 11; 12; 13; 14; 15])
    by (simpl; lia).
  simpl in H.
  repeat (destruct H as [<- | H]; [vm_compute; reflexivity|]).
  contradiction.
Qed.

(** Fx29 adds the digit itself, not five times the digit, to the base. *)
Lemma font_address_is_base_plus_digit (rand : Z) (s : State) (opcode : Z) :
  WellFormed s ->
  pc s < MEMORY_SIZE - 1 ->
  fetch s = Some opcode ->
  nibble1 opcode = 0xF ->
  imm_nn opcode = 0x29 ->
  state_step rand s =
    Some (set_pc (set_reg_i s (FONT_START + reg s (nibble2 opcode)))
                 (pc s + 2), []).
Proof.
  intros W Hpc Hf Hn1 Hnn.
  rewrite (state_step_fetch _ _ _ Hpc Hf).
  unfold exec. rewrite Hn1. cbv beta iota zeta.
  unfold exec_F. rewrite Hnn. cbv beta iota zeta.
  unfold advance, bind. simpl pc.
  pose proof (reg_range s (nibble2 opcode) W) as Hr.
  rewrite (u16_small (FONT_START + _)) by (unfold FONT_START; lia).
  rewrite u16_small; [reflexivity|].
  pose proof (fetch_pc_nonneg _ _ Hf). unfold MEMORY_SIZE in Hpc. lia.
Qed.

(** C4: the ROM [6001 F029] sets V0 = 1 and runs Fx29.  The index register
    becomes [FONT_START + 1 = 0x51]; the five bytes there are the last four
    bytes of glyph 0 and the first of glyph 1, not the glyph of digit 1,
    which starts at [FONT_START + 5]. *)
Theorem font_address_misses_glyph :
  exists s,
    run [0x60; 1; 0xF0; 0x29] 2 = Some s /\
    reg s 0 = 1 /\
    reg_i s = FONT_START + 1 /\
    memcpy_from (memory s) (reg_i s) 5 = Some [0x90; 0x90; 0x90; 0xF0; 0x20] /\
    glyph 1 = [0x20; 0x60; 0x20; 0x20; 0x70] /\
    memcpy_from (memory s) (FONT_START + 5 * 1) 5 = Some (glyph 1) /\
    memcpy_from (memory s) (reg_i s) 5 <> Some (glyph 1).
Proof.
  eexists.
  split; [vm_compute; reflexivity|].
  split; [vm_compute; reflexivity|].
  split; [vm_compute; reflexivity|].
  split; [vm_compute; reflexivity|].
  split; [vm_compute; reflexivity|].
  split; [vm_compute; reflexivity|].
  vm_compute. discriminate.
Qed.

(** Only digit 0 is served: for every digit 1..F the bytes at
    [FONT_START + d] of the initial memory differ from the glyph of [d]. *)
Lemma font_address_wrong_for_nonzero_digits (d : Z) :
  1 <= d <= 15 ->
  memcpy_from (memory state_init) (FONT_START + d) 5 <> Some (glyph d).
Proof.
  intros Hd.
  assert (H : In d [1; 2; 3; 4; 5; 6; 7; 8; 9; 10; 11; 12; 13; 14; 15])
    by (simpl; lia).
  simpl in H.
  repeat (destruct H as [<- | H]; [vm_compute; discriminate|]).
  contradiction.
Qed.

(** ** Sprite placement (Dxyn) *)

(** The renderer shows bit [63 - x] of a row as column [x]. *)
Lemma pow2_land (row k : Z) :
  0 <= k -> Z.land row (2 ^ k) = if Z.testbit row k then 2 ^ k else 0.
Proof.
  intros Hk. apply Z.bits_inj'. intros n Hn.
  rewrite Z.land_spec, Z.pow2_bits_eqb by lia.
  destruct (Z.eqb_spec k n) as [->|Hne].
  - destruct (Z.testbit row n).
    + rewrite Z.pow2_bits_eqb by lia. rewrite Z.eqb_refl. reflexivity.
    + rewrite Z.bits_0. reflexivity.
  - rewrite andb_false_r. destruct (Z.testbit row k).
    + rewrite Z.pow2_bits_eqb by lia. symmetry. apply Z.eqb_neq. exact Hne.
    + rewrite Z.bits_0. reflexivity.
Qed.

Lemma pixel_on_testbit (row x : Z) :
  0 <= x <= 63 -> pixel_on row x = Z.testbit row (63 - x).
Proof.
  intros Hx. unfold pixel_on.
  assert (Hm : Z.shiftr (u64 (Z.shiftl 1 63)) x = 2 ^ (63 - x)).
  { change (u64 (Z.shiftl 1 63)) with (2 ^ 63).
    rewrite Z.shiftr_div_pow2 by lia.
    rewrite <- Z.pow_sub_r by lia. reflexivity. }
  rewrite Hm. rewrite pow2_land by lia.
  assert (0 < 2 ^ (63 - x)) by (apply Z.pow_pos_nonneg; lia).
  destruct (Z.testbit row (63 - x)).
  - apply Z.eqb_refl.
  - apply Z.eqb_neq. lia.
Qed.


Section SpriteMask.

Variables (byte start_x : Z).
Hypothesis Hbyte : 0 <= byte < 0x100.
Hypothesis Hstart : 0 <= start_x < 64.

(** Shifting a byte left by 55 keeps it below [2 ^ 63]. *)
Lemma sprite_mask_no_wrap :
  sprite_mask byte start_x = Z.shiftr (Z.shiftl byte 55) start_x.
Proof.
  unfold sprite_mask, u64. f_equal. apply Z.mod_small.
  rewrite Z.shiftl_mul_pow2 by lia. lia.
Qed.

(** Bit [k] of the sprite byte lands on bit [k + 55 - start_x] of the
    row, and bits shifted below bit 0 are dropped. *)
Lemma sprite_mask_bit (n : Z) :
  0 <= n ->
  Z.testbit (sprite_mask byte start_x) n =
  Z.testbit byte (n + start_x - 55).
Proof.
  intros Hn. rewrite sprite_mask_no_wrap.
  rewrite Z.shiftr_spec by lia. rewrite Z.shiftl_spec by lia.
  reflexivity.
Qed.

(** Bit 63 - start_x, the pixel of the starting column, is never set. *)
Lemma sprite_mask_start_column_clear :
  Z.testbit (sprite_mask byte start_x) (63 - start_x) = false.
Proof.
  rewrite sprite_mask_bit by lia.
  replace (63 - start_x + start_x - 55) with 8 by lia.
  apply (testbit_above byte 8); lia.
Qed.

(** The most significant bit of the byte lands one column further right,
    as long as that column exists. *)
Lemma sprite_mask_msb_column :
  start_x < 63 ->
  Z.testbit (sprite_mask byte start_x) (63 - (start_x + 1)) =
  Z.testbit byte 7.
Proof.
  intros H. rewrite sprite_mask_bit by lia. f_equal. lia.
Qed.

(** No wraparound: nothing lands left of the starting column. *)
Lemma sprite_mask_left_clear (x : Z) :
  0 <= x <= start_x ->
  Z.testbit (sprite_mask byte start_x) (63 - x) = false.
Proof.
  intros Hx. rewrite sprite_mask_bit by lia.
  apply (testbit_above byte 8); lia.
Qed.

(** In the renderer's terms: the starting column is never lit by the
    sprite, and the next column shows the leftmost sprite bit. *)
Lemma sprite_start_column_never_lit :
  pixel_on (sprite_mask byte start_x) start_x = false.
Proof.
  rewrite pixel_on_testbit by lia. apply sprite_mask_start_column_clear.
Qed.

Lemma sprite_leftmost_bit_column :
  start_x < 63 ->
  pixel_on (sprite_mask byte start_x) (start_x + 1) = Z.testbit byte 7.
Proof.
  intros H. rewrite pixel_on_testbit by lia.
  apply sprite_mask_msb_column. exact H.
Qed.

End SpriteMask.

(** C5: the ROM [603C A206 D011 FF] sets V0 = 60, points I at the byte
    0xFF and draws one sprite row at column V0, row V1 = 0.  Row 0 of the
    display becomes 7: the pixels lit are columns 61, 62 and 63, so the
    most significant sprite bit is on column 61, not on the starting
    column 60, and five bits, not four, are lost past the right edge;
    nothing wraps to the columns 0..59. *)
Theorem sprite_row_lands_one_column_right :
  exists s s',
    run [0x60; 60; 0xA2; 0x06; 0xD0; 0x11; 0xFF] 2 = Some s /\
    fetch s = Some 0xD011 /\
    reg s 0 = 60 /\ reg s 1 = 0 /\ load (memory s) (reg_i s) = Some 0xFF /\
    state_step 0 s = Some (s', []) /\
    video_row s' 0 = 7 /\
    map (pixel_on (video_row s' 0)) [60; 61; 62; 63] =
      [false; true; true; true] /\
    forallb (fun x => negb (pixel_on (video_row s' 0) (Z.of_nat x)))
            (seq 0 60) = true.
Proof.
  eexists. eexists.
  split; [vm_compute; reflexivity|].
  split; [vm_compute; reflexivity|].
  split; [vm_compute; reflexivity|].
  split; [vm_compute; reflexivity|].
  split; [vm_compute; reflexivity|].
  split; [vm_compute; reflexivity|].
  split; [vm_compute; reflexivity|].
  split; vm_compute; reflexivity.
Qed.

(** ** The font region of memory *)

Lemma length_poke_bytes (bs : list Z) : forall (m : list Z) (a : nat),
  length (poke_bytes m a bs) = length m.
Proof.
  induction bs as [|b bs IH]; intros m a; simpl; [reflexivity|].
  rewrite IH. apply length_insert.
Qed.

Lemma poke_bytes_lookup_outside (bs : list Z) : forall (m : list Z) (a i : nat),
  (i < a \/ a + length bs <= i)%nat -> poke_bytes m a bs !! i = m !! i.
Proof.
  induction bs as [|b bs IH]; intros m a i Hi; simpl; [reflexivity|].
  simpl in Hi. rewrite IH by lia. apply list_lookup_insert_ne. lia.
Qed.

Lemma draw_rows_memory (todo : nat) : forall row start_x start_y s s',
  draw_rows todo row start_x start_y s = Some s' -> memory s' = memory s.
Proof.
  induction todo as [|todo IH]; intros row sx sy s s' H; simpl in H.
  - injection H as <-. reflexivity.
  - destruct (32 <=? u8 (sy + row)).
    + injection H as <-. reflexivity.
    + destruct (load (memory s) (reg_i s + row)) as [byte|]; [|discriminate].
      cbn [bind] in H. apply IH in H. rewrite H.
      destruct (Z.land _ _ =? 0); reflexivity.
Qed.

Lemma outcome_memory (o : Outcome) (s' : State) (b : bool) (out : list Diag) :
  o = (s', b, out) -> memory s' = memory o.1.1.
Proof. intros ->. reflexivity. Qed.

Lemma skip_if_memory (s : State) (c : bool) :
  memory (skip_if s c).1.1 = memory s.
Proof. destruct c; reflexivity. Qed.

Lemma exec_8_memory (s : State) (opcode : Z) :
  memory (exec_8 s opcode).1.1 = memory s.
Proof. unfold exec_8. repeat break_match; reflexivity. Qed.

Lemma exec_E_memory (s : State) (opcode : Z) :
  memory (exec_E s opcode).1.1 = memory s.
Proof. unfold exec_E, skip_if. repeat break_match; reflexivity. Qed.

Lemma store_lookup_outside (m m' : list Z) (a v : Z) (i : nat) :
  store m a v = Some m' -> i <> Z.to_nat a -> m' !! i = m !! i.
Proof.
  unfold store. destruct (_ && _); [|discriminate].
  intros [= <-] Hne. apply list_lookup_insert_ne. lia.
Qed.

Lemma store_Some_nonneg (m m' : list Z) (a v : Z) :
  store m a v = Some m' -> 0 <= a.
Proof.
  unfold store. destruct (0 <=? a) eqn:E; [|discriminate].
  intros _. apply Z.leb_le in E. exact E.
Qed.

Lemma instruction_decimal_digits_memory (s s' : State) (v : Z) (i : nat) :
  instruction_decimal_digits s v = Some s' ->
  ~ inside (reg_i s) 3 i ->
  memory s' !! i = memory s !! i.
Proof.
  unfold instruction_decimal_digits, inside. intros H Hi.
  destruct (store (memory s) (reg_i s) _) as [m1|] eqn:E1; [|discriminate].
  cbn [bind] in H.
  destruct (store m1 (reg_i s + 1) _) as [m2|] eqn:E2; [|discriminate].
  cbn [bind] in H.
  destruct (store m2 (reg_i s + 2) _) as [m3|] eqn:E3; [|discriminate].
  cbn [bind] in H. injection H as <-. simpl.
  pose proof (store_Some_nonneg _ _ _ _ E1) as H0.
  rewrite (store_lookup_outside _ _ _ _ _ E3) by lia.
  rewrite (store_lookup_outside _ _ _ _ _ E2) by lia.
  rewrite (store_lookup_outside _ _ _ _ _ E1) by lia.
  reflexivity.
Qed.

Lemma memcpy_to_lookup_outside (m m' : list Z) (a : Z) (bs : list Z) (i : nat) :
  memcpy_to m a bs = Some m' ->
  ~ inside a (Z.of_nat (length bs)) i ->
  m' !! i = m !! i.
Proof.
  unfold memcpy_to, inside. destruct (in_bounds _ _ _); [|discriminate].
  intros [= <-] Hi. apply poke_bytes_lookup_outside. lia.
Qed.

Lemma exec_F_memory (s : State) (opcode : Z) :
  forall s' should_step out (i : nat),
    exec_F s opcode = Some (s', should_step, out) ->
    (imm_nn opcode = 0x33 -> ~ inside (reg_i s) 3 i) ->
    (imm_nn opcode = 0x55 -> ~ inside (reg_i s) (nibble2 opcode + 1) i) ->
    memory s' !! i = memory s !! i.
Proof.
  unfold exec_F. intros s' b out i.
  repeat break_match;
    try (intros [= <- _ _] _ _; reflexivity).
  - intros H H33 _. specialize (H33 eq_refl).
    destruct (instruction_decimal_digits s _) as [s0|] eqn:E; [|discriminate].
    cbn [bind] in H. injection H as <- _ _.
    eapply instruction_decimal_digits_memory; eassumption.
  - intros H _ H55. specialize (H55 eq_refl).
    destruct (memcpy_to _ _ _) as [m|] eqn:E; [|discriminate].
    cbn [bind] in H. injection H as <- _ _. simpl.
    eapply memcpy_to_lookup_outside; [exact E|].
    unfold inside in *. rewrite length_take. lia.
  - intros H _ _.
    destruct (memcpy_from _ _ _) as [bs|]; [|discriminate].
    cbn [bind] in H. injection H as <- _ _. reflexivity.
Qed.

Lemma instruction_draw_sprite_memory (s s' : State) (x y n : Z) :
  instruction_draw_sprite s x y n = Some s' -> memory s' = memory s.
Proof.
  unfold instruction_draw_sprite. intros H.
  apply draw_rows_memory in H. exact H.
Qed.

(** Outside the call stack, a step writes memory only through Fx33 and
    Fx55, and only at the addresses from I on. *)
Lemma exec_memory (rand : Z) (s : State) (opcode : Z) :
  forall s' should_step out (i : nat),
    exec rand s opcode = Some (s', should_step, out) ->
    touches_stack opcode = false ->
    ~ inside (reg_i s) (store_length opcode) i ->
    memory s' !! i = memory s !! i.
Proof.
  intros s' b out i. unfold touches_stack, store_length, exec.
  break_switch;
    try (intros [= <- _ _] _ _; reflexivity);
    try (intros _ Hts; simpl in Hts; discriminate Hts);
    try (intros [= H] _ _; rewrite (outcome_memory _ _ _ _ H);
         first [ rewrite skip_if_memory | rewrite exec_8_memory
               | rewrite exec_E_memory ]; reflexivity).
  - intros H _ Hin. simpl in Hin.
    eapply exec_F_memory; [exact H | |]; intros E; rewrite E in Hin;
      exact Hin.
  - intros H _ _.
    destruct (instruction_draw_sprite _ _ _ _) as [s0|] eqn:E; [|discriminate].
    cbn [bind] in H. injection H as <- _ _.
    rewrite (instruction_draw_sprite_memory _ _ _ _ _ E). reflexivity.
Qed.

Lemma store_length_range (opcode : Z) : 0 <= store_length opcode <= 16.
Proof.
  unfold store_length. pose proof (nibble2_range opcode).
  repeat match goal with |- context [if ?b then _ else _] => destruct b end;
    lia.
Qed.

Lemma font_region_ext (m m' : list Z) :
  (forall i : nat, (Z.to_nat FONT_START <= i < Z.to_nat FONT_START + length FONTS)%nat ->
                   m' !! i = m !! i) ->
  font_region m' = font_region m.
Proof.
  intros H. unfold font_region. apply list_eq. intros i.
  destruct (decide (i < length FONTS)%nat) as [Hlt|Hge].
  - rewrite !lookup_take_lt by exact Hlt. rewrite !lookup_drop.
    apply H. lia.
  - rewrite !lookup_take_ge by lia. reflexivity.
Qed.

(** C3 (amended): a step that runs neither a call nor a return leaves the
    80 bytes of the font region as they were, unless it is an Fx33 or an
    Fx55 whose destination, the bytes from I on, overlaps the region; an
    opcode other than these four does not write memory at all. *)
Theorem step_preserves_font_region
    (rand : Z) (s s' : State) (out : list Diag) (opcode : Z) :
  fetch s = Some opcode ->
  state_step rand s = Some (s', out) ->
  touches_stack opcode = false ->
  store_length opcode = 0 \/
    reg_i s + store_length opcode <= FONT_START \/
    FONT_START + Z.of_nat (length FONTS) <= reg_i s ->
  font_region (memory s') = font_region (memory s) /\
  (store_length opcode = 0 -> memory s' = memory s).
Proof.
  intros Hf Hstep Hts Hfree. unfold state_step in Hstep.
  destruct (MEMORY_SIZE - 1 <=? pc s).
  { injection Hstep as <- _. split; reflexivity. }
  rewrite Hf in Hstep. cbn [bind] in Hstep.
  destruct (exec rand s opcode) as [[[s1 b] out1]|] eqn:E; [|discriminate].
  cbn [bind] in Hstep.
  assert (Hm : memory s' = memory s1).
  { injection Hstep as <- _. destruct b; reflexivity. }
  rewrite Hm.
  pose proof (store_length_range opcode) as Hlen.
  split.
  - apply font_region_ext. intros i Hi.
    eapply exec_memory; [exact E | exact Hts |].
    unfold inside, FONT_START in *. simpl length in *. lia.
  - intros H0. apply list_eq. intros i.
    eapply exec_memory; [exact E | exact Hts |].
    unfold inside. rewrite H0. simpl. lia.
Qed.

Lemma step_preserves_font_region_witness :
  exists s s',
    run [0xA3; 0x00; 0xF0; 0x33] 1 = Some s /\
    state_step 0 s = Some (s', []) /\
    font_region (memory s') = font_region (memory s).
Proof.
  eexists. eexists.
  split; [vm_compute; reflexivity|].
  split; [vm_compute; reflexivity|].
  refine (proj1 (step_preserves_font_region 0 _ _ [] 0xF033 _ _ _ _)).
  - vm_compute; reflexivity.
  - vm_compute; reflexivity.
  - vm_compute; reflexivity.
  - right. right. vm_compute. discriminate.
Defined.

(** C3 (as stated) fails twice.  The ROM [A050 F033] points I at the font
    table and stores the digits of V0 = 0 over the first bytes of glyph 0.
    The ROM [2200], a call as the very first instruction, pushes its return
    address 0x0202 at the stack base 0x52, which is the third byte of
    glyph 0. *)
Lemma font_region_overwritten :
  (exists s s' out,
     run [0xA0; 0x50; 0xF0; 0x33] 1 = Some s /\
     font_region (memory s) = FONTS /\
     state_step 0 s = Some (s', out) /\
     font_region (memory s') <> font_region (memory s)) /\
  (exists s s' out,
     run [0x22; 0x00] 0 = Some s /\
     font_region (memory s) = FONTS /\
     sp s = STACK_START /\
     load (memory s) STACK_START = Some 0x90 /\
     state_step 0 s = Some (s', out) /\
     load (memory s') STACK_START = Some 0x02 /\
     font_region (memory s') <> font_region (memory s)).
Proof.
  split.
  - eexists. eexists. eexists.
    split; [vm_compute; reflexivity|].
    split; [vm_compute; reflexivity|].
    split; [vm_compute; reflexivity|].
    vm_compute. discriminate.
  - eexists. eexists. eexists.
    split; [vm_compute; reflexivity|].
    split; [vm_compute; reflexivity|].
    split; [vm_compute; reflexivity|].
    split; [vm_compute; reflexivity|].
    split; [vm_compute; reflexivity|].
    split; [vm_compute; reflexivity|].
    vm_compute. discriminate.
Qed.

(** ** End of memory and the end-of-program flag *)

Lemma draw_rows_end_of_program (todo : nat) : forall row start_x start_y s s',
  draw_rows todo row start_x start_y s = Some s' ->
  end_of_program s' = end_of_program s.
Proof.
  induction todo as [|todo IH]; intros row sx sy s s' H; simpl in H.
  - injection H as <-. reflexivity.
  - destruct (32 <=? u8 (sy + row)).
    + injection H as <-. reflexivity.
    + destruct (load (memory s) (reg_i s + row)) as [byte|]; [|discriminate].
      cbn [bind] in H. apply IH in H. rewrite H.
      destruct (Z.land _ _ =? 0); reflexivity.
Qed.

Lemma outcome_end_of_program
    (o : Outcome) (s' : State) (b : bool) (out : list Diag) :
  o = (s', b, out) -> end_of_program s' = end_of_program o.1.1.
Proof. intros ->. reflexivity. Qed.

Lemma skip_if_end_of_program (s : State) (c : bool) :
  end_of_program (skip_if s c).1.1 = end_of_program s.
Proof. destruct c; reflexivity. Qed.

Lemma exec_8_end_of_program (s : State) (opcode : Z) :
  end_of_program (exec_8 s opcode).1.1 = end_of_program s.
Proof. unfold exec_8. repeat break_match; reflexivity. Qed.

Lemma exec_E_end_of_program (s : State) (opcode : Z) :
  end_of_program (exec_E s opcode).1.1 = end_of_program s.
Proof. unfold exec_E, skip_if. repeat break_match; reflexivity. Qed.

Lemma exec_F_end_of_program (s : State) (opcode : Z) :
  forall s' should_step out,
    exec_F s opcode = Some (s', should_step, out) ->
    end_of_program s' = end_of_program s.
Proof.
  unfold exec_F, instruction_decimal_digits. intros s' b out.
  break_switch;
    try (intros [= <- _ _]; reflexivity); intros H.
  - bind_inv H s0 E0. bind_inv E0 m1 E1. bind_inv E0 m2 E2.
    bind_inv E0 m3 E3. injection E0 as <-. injection H as <- _ _.
    reflexivity.
  - bind_inv H m E. injection H as <- _ _. reflexivity.
  - bind_inv H bs E. injection H as <- _ _. reflexivity.
Qed.

Lemma exec_end_of_program (rand : Z) (s : State) (opcode : Z) :
  forall s' should_step out,
    exec rand s opcode = Some (s', should_step, out) ->
    end_of_program s' = end_of_program s.
Proof.
  intros s' b out. unfold exec.
  break_switch;
    try (intros [= <- _ _]; reflexivity);
    try (intros [= H]; rewrite (outcome_end_of_program _ _ _ _ H);
         first [ apply skip_if_end_of_program | apply exec_8_end_of_program
               | apply exec_E_end_of_program ]);
    intros H.
  - unfold state_pop_from_stack in H.
    bind_inv H r E. bind_inv E hi E1. bind_inv E lo E2. bind_inv E m E3.
    injection E as <-. injection H as <- _ _. reflexivity.
  - eapply exec_F_end_of_program. exact H.
  - unfold instruction_draw_sprite in H. bind_inv H s0 E.
    injection H as <- _ _.
    rewrite (draw_rows_end_of_program _ _ _ _ _ _ E). reflexivity.
  - unfold state_push_to_stack in H. bind_inv H s0 E. bind_inv E m E1.
    injection E as <-. injection H as <- _ _. reflexivity.
Qed.

(** No step writes [end_of_program], wherever the program counter is. *)
Lemma state_step_end_of_program
    (rand : Z) (s s' : State) (out : list Diag) :
  state_step rand s = Some (s', out) ->
  end_of_program s' = end_of_program s.
Proof.
  unfold state_step. intros H.
  destruct (MEMORY_SIZE - 1 <=? pc s).
  { injection H as <- _. reflexivity. }
  bind_inv H opcode Ef. bind_inv H r E. destruct r as [[s1 b] out1].
  injection H as <- _. rewrite <- (exec_end_of_program _ _ _ _ _ _ E).
  destruct b; reflexivity.
Qed.

Lemma state_steps_end_of_program (n : nat) :
  forall (rand : nat -> Z) (s s' : State) (out : list Diag),
    state_steps rand n s = Some (s', out) ->
    end_of_program s' = end_of_program s.
Proof.
  induction n as [|n IH]; intros rand s s' out H; simpl in H.
  - injection H as <- _. reflexivity.
  - bind_inv H r E. destruct r as [s1 out1].
    bind_inv H r' E'. destruct r' as [s2 out2].
    injection H as <- _.
    rewrite (IH _ _ _ _ E'). eapply state_step_end_of_program. exact E.
Qed.

(** C6: with the program counter on the last byte of memory (reached by the
    ROM [1FFF], a jump to 0xFFF), a step returns the state as it was, and
    that includes [end_of_program]: the flag [main] tests after each step
    is still [false], so termination is not signalled, and no number of
    further steps signals it. *)
Theorem end_of_memory_does_not_set_flag :
  exists s,
    run [0x1F; 0xFF] 1 = Some s /\
    pc s = MEMORY_SIZE - 1 /\
    end_of_program s = false /\
    (forall rand s' out,
       state_step rand s = Some (s', out) ->
       s' = s /\ end_of_program s' = false) /\
    (forall rand n s' out,
       state_steps rand n s = Some (s', out) ->
       end_of_program s' = false).
Proof.
  eexists. split; [vm_compute; reflexivity|].
  split; [reflexivity|]. split; [reflexivity|]. split.
  - intros rand s' out Hstep.
    rewrite state_step_end_of_memory in Hstep by (vm_compute; discriminate).
    injection Hstep as <- _. split; reflexivity.
  - intros rand n s' out Hsteps.
    apply state_steps_end_of_program in Hsteps. exact Hsteps.
Qed.

(** * Further properties of the code *)

(** ** ROM loading *)

Lemma poke_bytes_lookup_inside (bs : list Z) : forall (m : list Z) (a i : nat),
  (a + length bs <= length m)%nat -> (i < length bs)%nat ->
  poke_bytes m a bs !! (a + i)%nat = bs !! i.
Proof.
  induction bs as [|b bs IH]; intros m a i Hlen Hi; simpl in *; [lia|].
  destruct i as [|i].
  - rewrite poke_bytes_lookup_outside by lia.
    rewrite Nat.add_0_r. apply list_lookup_insert_eq. lia.
  - replace (a + S i)%nat with (S a + i)%nat by lia.
    apply IH; [rewrite length_insert; lia | lia].
Qed.

Lemma take_drop_poke_bytes (m bs : list Z) (a : nat) :
  (a + length bs <= length m)%nat ->
  take (length bs) (drop a (poke_bytes m a bs)) = bs.
Proof.
  intros Hlen. apply list_eq. intros i.
  destruct (decide (i < length bs)%nat) as [Hlt|Hge].
  - rewrite lookup_take_lt by exact Hlt. rewrite lookup_drop.
    apply poke_bytes_lookup_inside; assumption.
  - rewrite lookup_take_ge by lia. symmetry. apply lookup_ge_None. lia.
Qed.



(** X2: an accepted ROM is copied to memory from [PROGRAM_START] on, byte
    for byte; memory keeps its length, every byte below 0x200 and after the
    ROM is as before (so the font table is intact), and no other field of
    the state changes. *)
Theorem load_rom_places_program (s s' : State) (data : list Z) :
  load_rom s data = Some s' ->
  memcpy_from (memory s') PROGRAM_START (length data) = Some data /\
  length (memory s') = length (memory s) /\
  (forall i : nat,
     (i < Z.to_nat PROGRAM_START \/
      Z.to_nat PROGRAM_START + length data <= i)%nat ->
     memory s' !! i = memory s !! i) /\
  font_region (memory s') = font_region (memory s) /\
  s' = set_memory s (memory s').
Proof.
  unfold load_rom.
  destruct (_ || _); [discriminate|].
  unfold memcpy_to.
  destruct (in_bounds (memory s) PROGRAM_START _) eqn:Hb; [|discriminate].
  cbn [bind]. intros [= <-]. simpl memory.
  unfold in_bounds in Hb. apply andb_true_iff in Hb as [_ Hb].
  apply Z.leb_le in Hb.
  split; [|split; [|split; [|split]]].
  - unfold memcpy_from, in_bounds. rewrite length_poke_bytes.
    replace (0 <=? PROGRAM_START) with true by reflexivity.
    destruct (_ <=? _) eqn:E; [|apply Z.leb_gt in E; lia].
    simpl. f_equal. apply take_drop_poke_bytes.
    unfold PROGRAM_START in *. lia.
  - apply length_poke_bytes.
  - intros i Hi. apply poke_bytes_lookup_outside. exact Hi.
  - apply font_region_ext. intros i Hi.
    apply poke_bytes_lookup_outside.
    unfold FONT_START, PROGRAM_START in *. simpl length in Hi. lia.
  - reflexivity.
Qed.

Lemma load_rom_places_program_witness :
  exists s',
    load_rom state_init [0x60; 0x05; 0x12; 0x00] = Some s' /\
    memcpy_from (memory s') PROGRAM_START 4 = Some [0x60; 0x05; 0x12; 0x00].
Proof.
  eexists. split; [vm_compute; reflexivity|].
  match goal with |- memcpy_from (memory ?s') _ _ = _ =>
    refine (proj1 (load_rom_places_program state_init s'
                     [0x60; 0x05; 0x12; 0x00] _))
  end.
  vm_compute; reflexivity.
Defined.

(** ** The timer tick *)

Lemma tick_timers_spec (s : State) :
  0 <= delay_timer s < 0x100 -> 0 <= sound_timer s < 0x100 ->
  tick_timers s =
    set_sound_timer (set_delay_timer s (Z.max 0 (delay_timer s - 1)))
                    (Z.max 0 (sound_timer s - 1)).
Proof.
  intros Hd Hs. unfold tick_timers.
  destruct (0 <? delay_timer s) eqn:Ed;
    [apply Z.ltb_lt in Ed | apply Z.ltb_ge in Ed];
    (destruct (0 <? sound_timer _) eqn:Es;
     [apply Z.ltb_lt in Es | apply Z.ltb_ge in Es]);
    simpl in *; destruct s; simpl in *; unfold set_sound_timer, set_delay_timer;
    simpl; f_equal; rewrite ?u8_small by lia; lia.
Qed.

(** X10: [n] timer ticks of the loop of [main] leave each timer at its value
    minus [n], or at 0 if it had less; a timer never wraps below zero and
    nothing else changes. *)
Theorem timers_count_down_to_zero (n : nat) (s : State) :
  0 <= delay_timer s < 0x100 ->
  0 <= sound_timer s < 0x100 ->
  Nat.iter n tick_timers s =
    set_sound_timer
      (set_delay_timer s (Z.max 0 (delay_timer s - Z.of_nat n)))
      (Z.max 0 (sound_timer s - Z.of_nat n)).
Proof.
  intros Hd Hs. induction n as [|n IH].
  - simpl. destruct s; simpl in *.
    unfold set_sound_timer, set_delay_timer; simpl. f_equal; lia.
  - rewrite Nat.iter_succ, IH. rewrite tick_timers_spec by (simpl; lia).
    unfold set_sound_timer, set_delay_timer; simpl. f_equal; lia.
Qed.

Lemma timers_count_down_to_zero_witness :
  delay_timer (Nat.iter 5 tick_timers (set_delay_timer state_init 3)) = 0 /\
  sound_timer
    (Nat.iter 5 tick_timers (set_sound_timer state_init 200)) = 195.
Proof.
  split.
  - rewrite (timers_count_down_to_zero 5 (set_delay_timer state_init 3));
      [reflexivity | simpl; lia | simpl; lia].
  - rewrite (timers_count_down_to_zero 5 (set_sound_timer state_init 200));
      [reflexivity | simpl; lia | simpl; lia].
Defined.

(** ** Keypad and events *)

Lemma keypad_range (k : SDL_Keycode) :
  0 <= get_chip8_keycode_from_sdl k <= 16.
Proof. destruct k; simpl; lia. Qed.

(** X9: [get_chip8_keycode_from_sdl] returns a value of 0..16; it returns
    16, the no-key sentinel, exactly for a key that is not one of the
    sixteen mapped ones; two mapped keys never give the same digit; and
    every digit 0..F has a key. *)
Theorem keypad_map_is_one_to_one :
  (forall k, 0 <= get_chip8_keycode_from_sdl k <= 16) /\
  (forall k, get_chip8_keycode_from_sdl k = 16 <->
             exists code, k = SDLK_other code) /\
  (forall k1 k2,
     get_chip8_keycode_from_sdl k1 = get_chip8_keycode_from_sdl k2 ->
     get_chip8_keycode_from_sdl k1 <> 16 -> k1 = k2) /\
  (forall d, 0 <= d <= 15 -> exists k, get_chip8_keycode_from_sdl k = d).
Proof.
  split; [|split; [|split]].
  - apply keypad_range.
  - intros k. split.
    + destruct k; simpl; try discriminate. intros _. eexists. reflexivity.
    + intros [code ->]. reflexivity.
  - intros k1 k2 H Hne.
    destruct k1; simpl in *; try contradiction;
      destruct k2; simpl in H; try discriminate H; reflexivity.
  - intros d Hd.
    assert (H : In d [0; 1; 2; 3; 4; 5; 6; 7; 8; 9; 10; 11; 12; 13; 14; 15])
      by (simpl; lia).
    simpl in H.
    destruct H as [<-|[<-|[<-|[<-|[<-|[<-|[<-|[<-|[<-|[<-|[<-|[<-|[<-|[<-|[<-|[<-|[]]]]]]]]]]]]]]]]].
    + exists SDLK_x. reflexivity.
    + exists SDLK_1. reflexivity.
    + exists SDLK_2. reflexivity.
    + exists SDLK_3. reflexivity.
    + exists SDLK_q. reflexivity.
    + exists SDLK_w. reflexivity.
    + exists SDLK_e. reflexivity.
    + exists SDLK_a. reflexivity.
    + exists SDLK_s. reflexivity.
    + exists SDLK_d. reflexivity.
    + exists SDLK_z. reflexivity.
    + exists SDLK_c. reflexivity.
    + exists SDLK_4. reflexivity.
    + exists SDLK_r. reflexivity.
    + exists SDLK_f. reflexivity.
    + exists SDLK_v. reflexivity.
Qed.

Lemma handle_event_running (sr : State * bool) (e : Event) :
  (handle_event sr e).2 = true <-> sr.2 = true /\ e <> SDL_QUIT.
Proof.
  destruct sr as [s r], e; simpl; split;
    try (intros H; split; [exact H | discriminate]);
    try (intros [H _]; exact H);
    try discriminate.
  intros [_ H]. contradiction.
Qed.

Lemma poll_events_from (events : list Event) : forall (sr : State * bool),
  (fold_left handle_event events sr).2 = true <->
  sr.2 = true /\ ~ In SDL_QUIT events.
Proof.
  induction events as [|e events IH]; intros sr; cbn [fold_left In].
  - tauto.
  - rewrite IH, handle_event_running. split.
    + intros [[Hr He] Hn]. split; [exact Hr|].
      intros [H|H]; contradiction.
    + intros [Hr Hn]. split; [split; [exact Hr|]|].
      * intros ->. apply Hn. left. reflexivity.
      * intros H. apply Hn. right. exact H.
Qed.

(** X7: after the event polling of [main], [is_running] is false exactly
    when the queue held an [SDL_QUIT] event, wherever in the queue it was.
    *)
Theorem poll_events_stops_on_quit (s : State) (events : list Event) :
  (poll_events s events).2 = false <-> In SDL_QUIT events.
Proof.
  unfold poll_events.
  pose proof (poll_events_from events (s, true)) as H. simpl in H.
  destruct ((fold_left handle_event events (s, true)).2).
  - split; [discriminate|]. intros Hin. destruct H as [H _].
    destruct (H eq_refl) as [_ Hn]. contradiction.
  - split; [intros _|reflexivity].
    assert (Hdec : forall a b : Event, {a = b} + {a <> b})
      by (repeat decide equality).
    destruct (in_dec Hdec SDL_QUIT events) as [Hin|Hn]; [exact Hin|].
    destruct H as [_ H]. discriminate (H (conj eq_refl Hn)).
Qed.

Lemma handle_event_latch (sr : State * bool) (e : Event) :
  0 <= keycode sr.1 <= 16 ->
  0 <= keycode (handle_event sr e).1 <= 16 /\
  (handle_event sr e).1 = set_keycode sr.1 (keycode (handle_event sr e).1).
Proof.
  destruct sr as [s r]. simpl. intros Hk.
  destruct e as [sym| | |]; simpl.
  - pose proof (keypad_range sym) as Hr.
    unfold key_down. simpl. rewrite u8_small by lia. split; [lia|reflexivity].
  - split; [lia|reflexivity].
  - split; [lia|]. destruct s; reflexivity.
  - split; [lia|]. destruct s; reflexivity.
Qed.

Lemma fold_handle_event_latch (events : list Event) :
  forall sr : State * bool,
    0 <= keycode sr.1 <= 16 ->
    0 <= keycode (fold_left handle_event events sr).1 <= 16 /\
    (fold_left handle_event events sr).1 =
      set_keycode sr.1 (keycode (fold_left handle_event events sr).1).
Proof.
  induction events as [|e events IH]; intros sr Hk; cbn [fold_left].
  - split; [exact Hk|]. destruct sr as [[] r]; reflexivity.
  - destruct (handle_event_latch sr e Hk) as [Hk1 Heq].
    destruct (IH (handle_event sr e) Hk1) as [Hk2 Heq2].
    split; [exact Hk2|]. rewrite Heq2 at 1. rewrite Heq. reflexivity.
Qed.

(** X8: the event polling of [main] changes no field of the state but the
    input latch, and a latch within 0..16 stays within 0..16. *)
Theorem poll_events_only_sets_latch (s : State) (events : list Event) :
  0 <= keycode s <= 16 ->
  0 <= keycode (poll_events s events).1 <= 16 /\
  (poll_events s events).1 =
    set_keycode s (keycode (poll_events s events).1).
Proof.
  intros Hk. unfold poll_events.
  apply (fold_handle_event_latch events (s, true)). exact Hk.
Qed.

Lemma poll_events_only_sets_latch_witness :
  keycode (poll_events state_init
             [SDL_KEYDOWN SDLK_q; SDL_other_event; SDL_KEYUP;
              SDL_KEYDOWN SDLK_v]).1 = 0xF.
Proof.
  pose proof (poll_events_only_sets_latch state_init
                [SDL_KEYDOWN SDLK_q; SDL_other_event; SDL_KEYUP;
                 SDL_KEYDOWN SDLK_v]) as H.
  destruct H as [_ H]; [simpl; lia|].
  rewrite H. reflexivity.
Defined.

(** ** Skips and jumps *)

Lemma set_pc_same (s : State) : set_pc s (pc s) = s.
Proof. destruct s. reflexivity. Qed.

Lemma pc_plus_small (s : State) (opcode d : Z) :
  pc s < MEMORY_SIZE - 1 -> fetch s = Some opcode -> 0 <= d <= 4 ->
  u16 (pc s + d) = pc s + d.
Proof.
  intros Hpc Hf Hd. apply u16_small.
  pose proof (fetch_pc_nonneg _ _ Hf). unfold MEMORY_SIZE in Hpc. lia.
Qed.

(** One skip instruction, taken and not taken. *)
Ltac skip_case H4 H2 :=
  cbv beta iota zeta; unfold skip_if;
  match goal with
  | |- context [if ?c then stay _ else _] => destruct c
  end;
  simpl; rewrite ?H4, ?H2; reflexivity.

(** X12: a skip instruction (3xnn, 4xnn, 5xy_, 9xy_, Ex9E, ExA1) moves the
    program counter by 4 when its condition holds and by 2 when it does not,
    prints nothing and changes no other field. *)
Theorem skip_moves_pc_by_four_or_two
    (rand : Z) (s : State) (opcode : Z) (taken : bool) :
  pc s < MEMORY_SIZE - 1 ->
  fetch s = Some opcode ->
  skip_condition s opcode = Some taken ->
  state_step rand s =
    Some (set_pc s (pc s + (if taken then 4 else 2)), []).
Proof.
  intros Hpc Hf Hc.
  rewrite (state_step_fetch _ _ _ Hpc Hf).
  pose proof (pc_plus_small s opcode 4 Hpc Hf ltac:(lia)) as H4.
  pose proof (pc_plus_small s opcode 2 Hpc Hf ltac:(lia)) as H2.
  revert Hc. unfold skip_condition, exec, exec_E.
  destruct (nibble1 opcode =? 3) eqn:E3;
    [apply Z.eqb_eq in E3; rewrite E3; intros [= <-]|].
  { skip_case H4 H2. }
  destruct (nibble1 opcode =? 4) eqn:E4;
    [apply Z.eqb_eq in E4; rewrite E4; intros [= <-]|].
  { skip_case H4 H2. }
  destruct (nibble1 opcode =? 5) eqn:E5;
    [apply Z.eqb_eq in E5; rewrite E5; intros [= <-]|].
  { skip_case H4 H2. }
  destruct (nibble1 opcode =? 9) eqn:E9;
    [apply Z.eqb_eq in E9; rewrite E9; intros [= <-]|].
  { skip_case H4 H2. }
  destruct (nibble1 opcode =? 14) eqn:EE; [|simpl; discriminate].
  apply Z.eqb_eq in EE; rewrite EE. cbv beta iota zeta.
  destruct (imm_nn opcode =? 158) eqn:E9E;
    [apply Z.eqb_eq in E9E; rewrite E9E; intros [= <-]|].
  { skip_case H4 H2. }
  destruct (imm_nn opcode =? 161) eqn:EA1; [|simpl; discriminate].
  apply Z.eqb_eq in EA1; rewrite EA1; intros [= <-].
  skip_case H4 H2.
Qed.

Lemma skip_moves_pc_by_four_or_two_witness :
  exists s,
    run [0x60; 0x07; 0x30; 0x07] 1 = Some s /\
    state_step 0 s = Some (set_pc s 0x206, []).
Proof.
  eexists. split; [vm_compute; reflexivity|].
  match goal with |- state_step _ ?s = _ =>
    apply (skip_moves_pc_by_four_or_two 0 s 0x3007 true)
  end.
  - vm_compute; reflexivity.
  - vm_compute; reflexivity.
  - vm_compute; reflexivity.
Defined.

(** X13: a jump 1nnn whose target is its own address leaves the state
    exactly as it is, so any number of steps returns the same state: the
    usual way a ROM halts. *)
Theorem jump_to_self_loops_forever
    (rand : nat -> Z) (n : nat) (s : State) (opcode : Z) :
  pc s < MEMORY_SIZE - 1 ->
  fetch s = Some opcode ->
  nibble1 opcode = 0x1 ->
  imm_nnn opcode = pc s ->
  state_steps rand n s = Some (s, []).
Proof.
  intros Hpc Hf Hn Ha. apply state_steps_fixpoint. intros r.
  rewrite (state_step_fetch _ _ _ Hpc Hf).
  unfold exec. rewrite Hn. cbv beta iota zeta. rewrite Ha.
  simpl. rewrite set_pc_same. reflexivity.
Qed.

Lemma jump_to_self_loops_forever_witness :
  exists s,
    run [0x60; 0x05; 0x12; 0x02] 1 = Some s /\
    reg s 0 = 5 /\
    state_steps (fun _ => 0) 1000 s = Some (s, []).
Proof.
  eexists. split; [vm_compute; reflexivity|]. split; [reflexivity|].
  match goal with |- state_steps _ _ ?s = _ =>
    apply (jump_to_self_loops_forever (fun _ => 0) 1000 s 0x1202)
  end.
  - vm_compute; reflexivity.
  - vm_compute; reflexivity.
  - vm_compute; reflexivity.
  - vm_compute; reflexivity.
Defined.

(** ** Call and return *)

Lemma push_spec (s : State) (A : Z) :
  0 <= A < 0x10000 ->
  Z.of_nat (length (memory s)) = MEMORY_SIZE ->
  0 <= sp s -> sp s + 2 <= MEMORY_SIZE ->
  state_push_to_stack s A =
    Some (set_sp
            (set_memory s (<[S (Z.to_nat (sp s)) := Z.land A 0xFF]>
                             (<[Z.to_nat (sp s) := Z.shiftr A 8]> (memory s))))
            (sp s + 2)).
Proof.
  intros HA Hlen H0 H2. unfold MEMORY_SIZE in *. unfold state_push_to_stack.
  rewrite memcpy_to_two by lia. cbn [bind].
  rewrite flipped_low_byte, flipped_high_byte by exact HA.
  rewrite (u16_small (sp s + 2)) by lia. reflexivity.
Qed.

Lemma pop_spec (s : State) (hi lo : Z) :
  Z.of_nat (length (memory s)) = MEMORY_SIZE ->
  2 <= sp s <= MEMORY_SIZE ->
  load (memory s) (sp s - 2) = Some hi ->
  load (memory s) (sp s - 1) = Some lo ->
  state_pop_from_stack s =
    Some (u16 (Z.lor (Z.shiftl hi 8) lo),
          set_memory (set_sp s (sp s - 2))
            (<[S (Z.to_nat (sp s - 2)) := 0]>
               (<[Z.to_nat (sp s - 2) := 0]> (memory s)))).
Proof.
  intros Hlen Hsp Hhi Hlo. unfold MEMORY_SIZE in *.
  unfold state_pop_from_stack. simpl sp. simpl memory.
  rewrite (u16_small (sp s - 2)) by lia.
  rewrite Hhi. replace (sp s - 2 + 1) with (sp s - 1) by lia. rewrite Hlo.
  cbn [bind]. rewrite memcpy_to_two by lia. cbn [bind]. reflexivity.
Qed.

(** X14: a call 2nnn with room for one stack slot jumps to nnn with the
    stack pointer advanced by 2; if the instruction there is the return
    00EE, the next step resumes at the instruction after the call with the
    stack pointer back, and the state differs from the one before the call
    only by the two bytes of the slot, now zero. *)
Theorem call_then_return_resumes_after_call
    (rand rand' : Z) (s : State) (opcode : Z) :
  pc s < MEMORY_SIZE - 1 ->
  fetch s = Some opcode ->
  nibble1 opcode = 0x2 ->
  Z.of_nat (length (memory s)) = MEMORY_SIZE ->
  0 <= sp s ->
  sp s + 2 <= MEMORY_SIZE ->
  exists s1,
    state_step rand s = Some (s1, []) /\
    pc s1 = imm_nnn opcode /\
    sp s1 = sp s + 2 /\
    (pc s1 < MEMORY_SIZE - 1 ->
     fetch s1 = Some 0x00EE ->
     state_step rand' s1 =
       Some (set_pc (set_memory s (<[S (Z.to_nat (sp s)) := 0]>
                                     (<[Z.to_nat (sp s) := 0]> (memory s))))
                    (pc s + 2), [])).
Proof.
  intros Hpc Hf Hn Hlen H0 H2.
  pose proof (fetch_pc_nonneg _ _ Hf) as Hpc0.
  assert (HA : 0 <= pc s + 2 < 0x10000) by (unfold MEMORY_SIZE in Hpc; lia).
  set (n := Z.to_nat (sp s)).
  eexists. split; [|split; [|split]].
  - rewrite (state_step_fetch _ _ _ Hpc Hf).
    unfold exec. rewrite Hn. cbv beta iota zeta.
    rewrite (u16_small (pc s + 2)) by exact HA.
    rewrite (push_spec s (pc s + 2) HA Hlen H0 H2). cbn [bind].
    reflexivity.
  - reflexivity.
  - reflexivity.
  - intros Hpc1 Hf1.
    rewrite (state_step_fetch _ _ _ Hpc1 Hf1).
    unfold exec. change (nibble1 238) with 0. cbv beta iota zeta.
    fold n.
    set (m1 := <[S n := Z.land (pc s + 2) 255]>
                 (<[n := Z.shiftr (pc s + 2) 8]> (memory s))).
    set (s1 := set_pc (set_sp (set_memory s m1) (sp s + 2)) (imm_nnn opcode)).
    assert (Hlen1 : length m1 = length (memory s))
      by (unfold m1; rewrite !length_insert; reflexivity).
    unfold MEMORY_SIZE in *.
    rewrite (pop_spec s1 (Z.shiftr (pc s + 2) 8) (Z.land (pc s + 2) 255)).
    + cbn [bind]. rewrite bytes_joined by exact HA.
      unfold s1, stay. simpl.
      replace (sp s + 2 - 2) with (sp s) by lia. fold n.
      unfold m1.
      rewrite (list_insert_insert_ne _ n (S n)) by lia.
      rewrite !list_insert_insert_eq.
      destruct s. reflexivity.
    + simpl. rewrite Hlen1. exact Hlen.
    + simpl. unfold MEMORY_SIZE. lia.
    + simpl. replace (sp s + 2 - 2) with (sp s) by lia.
      unfold load. destruct (sp s <? 0) eqn:E; [apply Z.ltb_lt in E; lia|].
      fold n. unfold m1. rewrite list_lookup_insert_ne by lia.
      apply list_lookup_insert_eq. lia.
    + simpl. replace (sp s + 2 - 1) with (sp s + 1) by lia.
      unfold load.
      destruct (sp s + 1 <? 0) eqn:E; [apply Z.ltb_lt in E; lia|].
      replace (Z.to_nat (sp s + 1)) with (S n) by lia.
      unfold m1. apply list_lookup_insert_eq. rewrite length_insert. lia.
Qed.

Lemma call_then_return_resumes_after_call_witness :
  exists s s1 s2,
    run [0x22; 0x04; 0x00; 0x00; 0x00; 0xEE] 0 = Some s /\
    state_step 0 s = Some (s1, []) /\
    pc s1 = 0x204 /\
    state_step 0 s1 = Some (s2, []) /\
    pc s2 = 0x202 /\ sp s2 = sp s.
Proof.
  eexists. 
  match goal with |- exists s1 s2, run ?rom 0 = Some ?s /\ _ =>
    assert (Hrun : run rom 0 = Some s)
  end; [vm_compute; reflexivity|].
  match type of Hrun with _ = Some ?s =>
    destruct (call_then_return_resumes_after_call 0 0 s 0x2204)
      as [s1 [Hstep [Hpc1 [Hsp1 Hret]]]]
  end.
  - vm_compute; reflexivity.
  - vm_compute; reflexivity.
  - vm_compute; reflexivity.
  - vm_compute; reflexivity.
  - vm_compute; discriminate.
  - vm_compute; discriminate.
  - exists s1. eexists.
    split; [exact Hrun|]. split; [exact Hstep|]. split; [exact Hpc1|].
    split; [apply Hret|split; reflexivity].
    + rewrite Hpc1. vm_compute; reflexivity.
    + assert (Hs1 := Hstep). vm_compute in Hs1. injection Hs1 as <-.
      vm_compute; reflexivity.
Defined.

(** ** Register dump and restore (Fx55, Fx65) *)

Lemma poke_bytes_take_same (bs : list Z) : forall (l : list Z) (a : nat),
  take (length bs) (drop a l) = bs -> poke_bytes l a bs = l.
Proof.
  induction bs as [|b bs IH]; intros l a H; simpl; [reflexivity|].
  simpl in H.
  destruct (l !! a) as [b'|] eqn:Hl.
  - rewrite (drop_S _ _ _ Hl) in H. simpl in H. injection H as -> Hrest.
    rewrite list_insert_id by exact Hl. apply IH. exact Hrest.
  - apply lookup_ge_None in Hl. rewrite drop_ge in H by lia. discriminate H.
Qed.

Lemma in_bounds_true (m : list Z) (a n : Z) :
  0 <= a -> a + n <= Z.of_nat (length m) -> in_bounds m a n = true.
Proof.
  intros H0 H1. unfold in_bounds. apply andb_true_iff.
  split; apply Z.leb_le; assumption.
Qed.

(** X15: Fx55 with [I + x + 1] inside memory stores V0..Vx at
    [memory[I..I+x]] and leaves the registers and I as they are; an Fx65
    with the same x run next reads them back and leaves every register as it
    was. *)
Theorem register_dump_then_restore
    (rand rand' : Z) (s : State) (opcode opcode' : Z) :
  wf_state s = true ->
  pc s < MEMORY_SIZE - 1 ->
  fetch s = Some opcode ->
  nibble1 opcode = 0xF ->
  imm_nn opcode = 0x55 ->
  reg_i s + nibble2 opcode + 1 <= MEMORY_SIZE ->
  exists s1,
    state_step rand s = Some (s1, []) /\
    memcpy_from (memory s1) (reg_i s) (Z.to_nat (nibble2 opcode + 1)) =
      Some (take (Z.to_nat (nibble2 opcode + 1)) (regs_v s)) /\
    regs_v s1 = regs_v s /\ reg_i s1 = reg_i s /\
    (pc s1 < MEMORY_SIZE - 1 ->
     fetch s1 = Some opcode' ->
     nibble1 opcode' = 0xF ->
     imm_nn opcode' = 0x65 ->
     nibble2 opcode' = nibble2 opcode ->
     state_step rand' s1 = Some (set_pc s1 (pc s1 + 2), [])).
Proof.
  intros Hwf Hpc Hf Hn1 Hnn Hi.
  apply wf_state_WellFormed in Hwf.
  pose proof (nibble2_range opcode) as Hx.
  pose proof (wf_reg_i s Hwf) as Hi0.
  pose proof (wf_memory_length s Hwf) as Hlen.
  pose proof (wf_regs_length s Hwf) as Hrl.
  unfold MEMORY_SIZE in *.
  set (k := Z.to_nat (nibble2 opcode + 1)) in *.
  set (bs := take k (regs_v s)).
  assert (Hbs : length bs = k) by (unfold bs; rewrite length_take; lia).
  set (m1 := poke_bytes (memory s) (Z.to_nat (reg_i s)) bs).
  assert (Hm1 : memcpy_to (memory s) (reg_i s) bs = Some m1).
  { unfold memcpy_to. rewrite in_bounds_true by lia. reflexivity. }
  assert (Hback : memcpy_from m1 (reg_i s) k = Some bs).
  { unfold memcpy_from.
    rewrite in_bounds_true
      by (unfold m1; rewrite ?length_poke_bytes; lia).
    f_equal. unfold m1. rewrite <- Hbs at 1.
    apply take_drop_poke_bytes. lia. }
  exists (set_pc (set_memory s m1) (pc s + 2)).
  split; [|split; [|split; [|split]]].
  - rewrite (state_step_fetch _ _ _ Hpc Hf).
    unfold exec. rewrite Hn1. cbv beta iota zeta.
    unfold exec_F. rewrite Hnn. cbv beta iota zeta.
    fold k. fold bs. rewrite Hm1. cbn [bind]. unfold advance. simpl.
    rewrite u16_small; [reflexivity|].
    pose proof (fetch_pc_nonneg _ _ Hf). lia.
  - exact Hback.
  - reflexivity.
  - reflexivity.
  - intros Hpc1 Hf1 Hn1' Hnn' Hx'.
    rewrite (state_step_fetch _ _ _ Hpc1 Hf1).
    unfold exec. rewrite Hn1'. cbv beta iota zeta.
    unfold exec_F. rewrite Hnn'. cbv beta iota zeta.
    rewrite Hx'. fold k. simpl memory. simpl reg_i. simpl regs_v.
    rewrite Hback. cbn [bind].
    rewrite (poke_bytes_take_same bs (regs_v s) 0)
      by (rewrite Hbs; reflexivity).
    unfold advance. simpl.
    rewrite u16_small.
    + reflexivity.
    + simpl in Hpc1. pose proof (fetch_pc_nonneg _ _ Hf). lia.
Qed.

Lemma register_dump_then_restore_witness :
  exists s s1 s2,
    run [0x60; 0x11; 0x61; 0x22; 0xA3; 0x00; 0xF1; 0x55; 0xF1; 0x65] 3
      = Some s /\
    state_step 0 s = Some (s1, []) /\
    load (memory s1) 0x300 = Some 0x11 /\
    load (memory s1) 0x301 = Some 0x22 /\
    state_step 0 s1 = Some (s2, []) /\
    regs_v s2 = regs_v s.
Proof.
  eexists.
  match goal with |- exists s1 s2, run ?rom ?n = Some ?s /\ _ =>
    assert (Hrun : run rom n = Some s)
  end; [vm_compute; reflexivity|].
  match type of Hrun with _ = Some ?s =>
    destruct (register_dump_then_restore 0 0 s 0xF155 0xF165)
      as [s1 [Hstep [_ [Hregs [_ Hback]]]]]
  end.
  - vm_compute; reflexivity.
  - vm_compute; reflexivity.
  - vm_compute; reflexivity.
  - vm_compute; reflexivity.
  - vm_compute; reflexivity.
  - vm_compute; discriminate.
  - assert (Hs1 := Hstep). vm_compute in Hs1. injection Hs1 as Hs1.
    exists s1. eexists.
    split; [exact Hrun|]. split; [exact Hstep|].
    split; [subst s1; vm_compute; reflexivity|].
    split; [subst s1; vm_compute; reflexivity|].
    split.
    + apply Hback; subst s1; vm_compute; reflexivity.
    + exact Hregs.
Defined.

(** ** Shifts (8xy6, 8xyE) *)

Lemma below_pow2_by_bits (x k : Z) :
  0 <= k -> 0 <= x ->
  (forall n, k <= n -> Z.testbit x n = false) -> x < 2 ^ k.
Proof.
  intros Hk Hx Hbits.
  assert (H : x mod 2 ^ k = x).
  { apply Z.bits_inj'. intros n Hn. rewrite Z.testbit_mod_pow2 by lia.
    destruct (n <? k) eqn:E; [reflexivity|].
    apply Z.ltb_ge in E. simpl. symmetry. apply Hbits. exact E. }
  rewrite <- H. apply Z.mod_pos_bound. apply Z.pow_pos_nonneg; lia.
Qed.

Lemma reg_set_reg_same (s : State) (i v : Z) :
  0 <= i < Z.of_nat (length (regs_v s)) -> reg (set_reg s i v) i = v.
Proof.
  intros Hi. unfold reg, set_reg. simpl.
  rewrite list_lookup_insert_eq; [reflexivity|]. lia.
Qed.

Lemma regs_length_set_reg (s : State) (i v : Z) :
  length (regs_v (set_reg s i v)) = length (regs_v s).
Proof. unfold set_reg. simpl. apply length_insert. Qed.

(** Reading Vx and VF after [regs_v[0xF] = f; regs_v[x] = w]. *)
Lemma flag_then_register (s : State) (x f w : Z) :
  length (regs_v s) = 16%nat -> 0 <= x < 16 -> x <> 0xF ->
  reg (set_reg (set_reg s 0xF f) x w) x = w /\
  reg (set_reg (set_reg s 0xF f) x w) 0xF = f /\
  reg (set_reg s 0xF f) x = reg s x.
Proof.
  intros Hl Hx Hne. split; [|split].
  - apply reg_set_reg_same. rewrite regs_length_set_reg. lia.
  - rewrite reg_set_reg_ne by lia. apply reg_set_reg_same. lia.
  - apply reg_set_reg_ne; lia.
Qed.

(** X16: for x other than F, the shifts lose nothing: after 8xy6, [2 * Vx +
    VF] is the old Vx, and after 8xyE, [Vx + 256 * VF] is twice the old Vx;
    VF is 0 or 1, and Vy plays no part. *)
Theorem shift_puts_lost_bit_in_flag
    (rand : Z) (s : State) (opcode : Z) :
  wf_state s = true ->
  pc s < MEMORY_SIZE - 1 ->
  fetch s = Some opcode ->
  nibble1 opcode = 0x8 ->
  nibble2 opcode <> 0xF ->
  nibble4 opcode = 0x6 \/ nibble4 opcode = 0xE ->
  exists s',
    state_step rand s = Some (s', []) /\
    pc s' = pc s + 2 /\
    0 <= reg s' 0xF <= 1 /\
    (nibble4 opcode = 0x6 ->
     2 * reg s' (nibble2 opcode) + reg s' 0xF = reg s (nibble2 opcode)) /\
    (nibble4 opcode = 0xE ->
     reg s' (nibble2 opcode) + 256 * reg s' 0xF
       = 2 * reg s (nibble2 opcode)).
Proof.
  intros Hwf Hpc Hf Hn1 Hx Hn4.
  apply wf_state_WellFormed in Hwf.
  pose proof (nibble2_range opcode) as Hx16.
  pose proof (reg_range s (nibble2 opcode) Hwf) as Hv.
  pose proof (wf_regs_length s Hwf) as Hl.
  assert (Hpc2 : u16 (pc s + 2) = pc s + 2)
    by (apply (pc_plus_small s opcode 2 Hpc Hf); lia).
  rewrite (state_step_fetch _ _ _ Hpc Hf).
  unfold exec. rewrite Hn1. cbv beta iota zeta. unfold exec_8.
  set (x := nibble2 opcode) in *. set (v := reg s x) in *.
  destruct Hn4 as [Hn4|Hn4]; rewrite Hn4; cbv beta iota zeta;
    unfold advance; cbn [bind]; eexists;
    (split; [reflexivity|]); (split; [simpl; exact Hpc2|]).
  - destruct (flag_then_register s x (Z.land v 1)
                (Z.shiftr (reg (set_reg s 15 (Z.land v 1)) x) 1) Hl Hx16 Hx)
      as [Hr [Hfl Hk]].
    change (reg (set_pc ?t _) ?i) with (reg t i).
    rewrite Hr, Hfl, Hk. fold v.
    assert (Hland : Z.land v 1 = v mod 2)
      by (change 1 with (Z.ones 1); apply Z.land_ones; lia).
    rewrite Hland, Z.shiftr_div_pow2 by lia. change (2 ^ 1) with 2.
    pose proof (Z.mod_pos_bound v 2 ltac:(lia)).
    pose proof (Z.div_mod v 2 ltac:(lia)).
    split; [lia|]. split; [intros _; lia | discriminate].
  - destruct (flag_then_register s x (Z.shiftr v 7)
                (u8 (Z.shiftl (reg (set_reg s 15 (Z.shiftr v 7)) x) 1))
                Hl Hx16 Hx) as [Hr [Hfl Hk]].
    change (reg (set_pc ?t _) ?i) with (reg t i).
    rewrite Hr, Hfl, Hk. fold v.
    rewrite Z.shiftr_div_pow2, Z.shiftl_mul_pow2 by lia.
    change (2 ^ 7) with 128. change (2 ^ 1) with 2. unfold u8.
    assert (0 <= v / 128 <= 1).
    { split; [apply Z.div_pos; lia|].
      assert (v / 128 < 2) by (apply Z.div_lt_upper_bound; lia). lia. }
    split; [lia|]. split; [discriminate|]. intros _.
    pose proof (Z.div_mod (v * 2) 256 ltac:(lia)) as Hd.
    replace ((v * 2) / 256) with (v / 128) in Hd.
    + lia.
    + replace (v * 2) with (2 * v) by lia.
      change 256 with (2 * 128). rewrite Z.div_mul_cancel_l by lia.
      reflexivity.
Qed.

Lemma shift_puts_lost_bit_in_flag_witness :
  exists s s',
    run [0x60; 0x85; 0x80; 0x0E] 1 = Some s /\
    state_step 0 s = Some (s', []) /\
    reg s' 0 + 256 * reg s' 0xF = 2 * 0x85.
Proof.
  eexists.
  match goal with |- exists s', run ?rom ?n = Some ?s /\ _ =>
    assert (Hrun : run rom n = Some s)
  end; [vm_compute; reflexivity|].
  match type of Hrun with _ = Some ?s =>
    destruct (shift_puts_lost_bit_in_flag 0 s 0x800E)
      as [s' [Hstep [_ [_ [_ Hleft]]]]]
  end.
  - vm_compute; reflexivity.
  - vm_compute; reflexivity.
  - vm_compute; reflexivity.
  - vm_compute; reflexivity.
  - vm_compute; discriminate.
  - right. vm_compute; reflexivity.
  - exists s'. split; [exact Hrun|]. split; [exact Hstep|].
    apply Hleft. vm_compute; reflexivity.
Defined.

(** ** Random byte (Cxnn) *)

(** X17: whatever [rand()] returns, Cxnn stores in Vx a byte with no bit set
    outside nn, and changes nothing else but the program counter. *)
Theorem random_byte_stays_within_mask
    (rand : Z) (s : State) (opcode : Z) :
  wf_state s = true ->
  pc s < MEMORY_SIZE - 1 ->
  fetch s = Some opcode ->
  nibble1 opcode = 0xC ->
  exists v,
    state_step rand s =
      Some (set_pc (set_reg s (nibble2 opcode) v) (pc s + 2), []) /\
    0 <= v < 0x100 /\
    Z.land v (imm_nn opcode) = v /\
    (forall n, Z.testbit (imm_nn opcode) n = false -> Z.testbit v n = false).
Proof.
  intros Hwf Hpc Hf Hn1.
  assert (Hpc2 : u16 (pc s + 2) = pc s + 2)
    by (apply (pc_plus_small s opcode 2 Hpc Hf); lia).
  assert (Hnn : 0 <= imm_nn opcode < 2 ^ 8).
  { unfold imm_nn, u8. apply Z.mod_pos_bound. lia. }
  assert (Hv : 0 <= Z.land rand (imm_nn opcode) < 2 ^ 8).
  { assert (0 <= Z.land rand (imm_nn opcode))
      by (apply Z.land_nonneg; right; lia).
    split; [assumption|].
    apply below_pow2_by_bits; [lia|assumption|].
    intros n Hn. rewrite Z.land_spec.
    rewrite (testbit_above (imm_nn opcode) 8 n) by lia.
    apply andb_false_r. }
  exists (Z.land rand (imm_nn opcode)).
  split; [|split; [|split]].
  - rewrite (state_step_fetch _ _ _ Hpc Hf).
    unfold exec. rewrite Hn1. cbv beta iota zeta.
    rewrite (u8_small (Z.land rand _)) by exact Hv.
    unfold advance. cbn [bind]. simpl. rewrite Hpc2. reflexivity.
  - exact Hv.
  - rewrite <- Z.land_assoc, Z.land_diag. reflexivity.
  - intros n Hn. rewrite Z.land_spec, Hn. apply andb_false_r.
Qed.

Lemma random_byte_stays_within_mask_witness :
  exists s v,
    run [0xC3; 0x0F] 0 = Some s /\
    state_step 0x1234ABCD s = Some (set_pc (set_reg s 3 v) 0x202, []) /\
    0 <= v < 0x100 /\ Z.land v 0x0F = v.
Proof.
  eexists.
  match goal with |- exists v, run ?rom ?n = Some ?s /\ _ =>
    assert (Hrun : run rom n = Some s)
  end; [vm_compute; reflexivity|].
  match type of Hrun with _ = Some ?s =>
    destruct (random_byte_stays_within_mask 0x1234ABCD s 0xC30F)
      as [v [Hstep [Hv [Hmask _]]]]
  end.
  - vm_compute; reflexivity.
  - vm_compute; reflexivity.
  - vm_compute; reflexivity.
  - vm_compute; reflexivity.
  - exists v. split; [exact Hrun|]. split; [exact Hstep|].
    split; [exact Hv | exact Hmask].
Defined.

(** ** Drawing a sprite *)

(** What one pass of the row loop leaves alone. *)
Lemma draw_rows_frame (todo : nat) : forall row start_x start_y s s',
  draw_rows todo row start_x start_y s = Some s' ->
  memory s' = memory s /\
  reg_i s' = reg_i s /\
  pc s' = pc s /\
  length (video_buffer s') = length (video_buffer s) /\
  length (regs_v s') = length (regs_v s) /\
  forall i : nat, i <> 15%nat -> regs_v s' !! i = regs_v s !! i.
Proof.
  induction todo as [|todo IH]; intros row sx sy s s' H; simpl in H.
  - injection H as <-. repeat split; reflexivity.
  - destruct (32 <=? u8 (sy + row)).
    + injection H as <-. repeat split; reflexivity.
    + bind_inv H byte E. apply IH in H.
      destruct H as (Hm & Hi & Hp & Hv & Hr & Hregs).
      destruct (Z.land _ _ =? 0); simpl in *;
        rewrite ?length_insert in *;
        repeat split; try assumption.
      intros i Hi15. rewrite Hregs by exact Hi15.
      apply list_lookup_insert_ne. lia.
Qed.

Lemma lxor_cancel_mask (a b c m : Z) :
  Z.lxor (Z.lxor a m) (Z.lxor c (Z.lxor b m)) = Z.lxor a (Z.lxor c b).
Proof.
  apply Z.bits_inj'. intros n Hn. rewrite !Z.lxor_spec.
  destruct (Z.testbit a n), (Z.testbit b n), (Z.testbit c n),
           (Z.testbit m n); reflexivity.
Qed.

Lemma list_eq_default (l1 l2 : list Z) :
  length l1 = length l2 ->
  (forall n : nat, default 0 (l1 !! n) = default 0 (l2 !! n)) ->
  l1 = l2.
Proof.
  intros Hl H. apply list_eq. intros n. specialize (H n).
  destruct (l1 !! n) as [a|] eqn:E1, (l2 !! n) as [b|] eqn:E2; simpl in H.
  - congruence.
  - apply lookup_lt_Some in E1. apply lookup_ge_None in E2. lia.
  - apply lookup_lt_Some in E2. apply lookup_ge_None in E1. lia.
  - reflexivity.
Qed.

(** The rows of [t] after the loop are its rows before, each combined by
    exclusive or with what the same loop changes in [s]. *)
Lemma draw_rows_delta (todo : nat) : forall row start_x start_y s s1 t,
  draw_rows todo row start_x start_y s = Some s1 ->
  memory t = memory s ->
  reg_i t = reg_i s ->
  length (video_buffer t) = length (video_buffer s) ->
  exists t1,
    draw_rows todo row start_x start_y t = Some t1 /\
    forall n : nat,
      default 0 (video_buffer t1 !! n) =
      Z.lxor (default 0 (video_buffer t !! n))
             (Z.lxor (default 0 (video_buffer s1 !! n))
                     (default 0 (video_buffer s !! n))).
Proof.
  induction todo as [|todo IH]; intros row sx sy s s1 t H Hm Hi Hl;
    simpl in H; simpl.
  - injection H as <-. exists t. split; [reflexivity|]. intros n.
    rewrite Z.lxor_nilpotent, Z.lxor_0_r. reflexivity.
  - destruct (32 <=? u8 (sy + row)).
    + injection H as <-. exists t. split; [reflexivity|]. intros n.
      rewrite Z.lxor_nilpotent, Z.lxor_0_r. reflexivity.
    + rewrite Hm, Hi. bind_inv H byte E. cbn [bind].
      set (y := u8 (sy + row)) in *.
      set (mask := sprite_mask byte sx) in *.
      match type of H with draw_rows _ _ _ _ ?s' = _ => set (s0 := s') in * end.
      match goal with |- context [draw_rows _ _ _ _ ?t'] => set (t0 := t') end.
      destruct (IH _ _ _ s0 s1 t0 H) as [t1 [Ht1 Hrows]].
      * unfold t0, s0.
        destruct (Z.land (video_row t y) mask =? 0),
                 (Z.land (video_row s y) mask =? 0); simpl; exact Hm.
      * unfold t0, s0.
        destruct (Z.land (video_row t y) mask =? 0),
                 (Z.land (video_row s y) mask =? 0); simpl; exact Hi.
      * unfold t0, s0.
        destruct (Z.land (video_row t y) mask =? 0),
                 (Z.land (video_row s y) mask =? 0); simpl;
          rewrite !length_insert; exact Hl.
      * exists t1. split; [exact Ht1|]. intros n. rewrite Hrows.
        assert (Ht0 : video_buffer t0 =
                      <[Z.to_nat y := Z.lxor (video_row t y) mask]>
                        (video_buffer t))
          by (unfold t0; destruct (Z.land (video_row t y) mask =? 0);
              reflexivity).
        assert (Hs0 : video_buffer s0 =
                      <[Z.to_nat y := Z.lxor (video_row s y) mask]>
                        (video_buffer s))
          by (unfold s0; destruct (Z.land (video_row s y) mask =? 0);
              reflexivity).
        rewrite Ht0, Hs0. unfold video_row.
        destruct (decide (n = Z.to_nat y)) as [->|Hne].
        -- destruct (decide (Z.to_nat y < length (video_buffer s))%nat)
             as [Hlt|Hge].
           ++ rewrite !list_lookup_insert_eq by lia. simpl.
              apply lxor_cancel_mask.
           ++ rewrite !list_insert_ge by lia. reflexivity.
        -- rewrite !list_lookup_insert_ne by lia. reflexivity.
Qed.

(** X18: drawing the same sprite twice, from registers other than VF, gives
    back the display as it was before the first draw; memory is not touched.
    *)
Theorem draw_twice_restores_display
    (s s1 : State) (regx regy height : Z) :
  0 <= regx -> 0 <= regy -> regx <> 0xF -> regy <> 0xF ->
  instruction_draw_sprite s regx regy height = Some s1 ->
  exists s2,
    instruction_draw_sprite s1 regx regy height = Some s2 /\
    video_buffer s2 = video_buffer s /\
    memory s2 = memory s.
Proof.
  intros Hx0 Hy0 Hx Hy H. unfold instruction_draw_sprite in *.
  pose proof (draw_rows_frame _ _ _ _ _ _ H)
    as (Hm & Hi & _ & Hv & _ & Hregs).
  simpl in Hm, Hi, Hv.
  assert (Hreg : forall i, 0 <= i -> i <> 15 -> reg s1 i = reg s i).
  { intros i Hi0 Hi15. unfold reg. rewrite Hregs by lia. simpl.
    rewrite list_lookup_insert_ne by lia. reflexivity. }
  rewrite (Hreg regx Hx0 Hx), (Hreg regy Hy0 Hy).
  destruct (draw_rows_delta _ _ _ _ _ _ (set_reg s1 15 0) H)
    as [s2 [Hs2 Hrows]].
  - simpl. exact Hm.
  - simpl. exact Hi.
  - simpl. exact Hv.
  - exists s2. split; [exact Hs2|].
    pose proof (draw_rows_frame _ _ _ _ _ _ Hs2)
      as (Hm2 & _ & _ & Hv2 & _ & _).
    simpl in Hm2, Hv2. split.
    + apply list_eq_default; [congruence|].
      intros n. rewrite Hrows. simpl.
      rewrite <- Z.lxor_assoc, Z.lxor_nilpotent, Z.lxor_0_l. reflexivity.
    + congruence.
Qed.

Lemma draw_twice_restores_display_witness :
  exists s s1 s2,
    run [0x60; 0x03; 0x61; 0x1E; 0xA0; 0x50; 0xD0; 0x15] 3 = Some s /\
    instruction_draw_sprite s 0 1 5 = Some s1 /\
    video_buffer s1 <> video_buffer s /\
    instruction_draw_sprite s1 0 1 5 = Some s2 /\
    video_buffer s2 = video_buffer s.
Proof.
  eexists. eexists.
  match goal with |- exists s2, run ?rom ?n = Some ?s /\ ?d = Some ?s1 /\ _ =>
    assert (Hrun : run rom n = Some s); [vm_compute; reflexivity|];
    assert (Hdraw : d = Some s1); [vm_compute; reflexivity|]
  end.
  match type of Hdraw with instruction_draw_sprite ?s _ _ _ = Some ?s1 =>
    destruct (draw_twice_restores_display s s1 0 1 5)
      as [s2 [Hagain [Hvideo _]]]
  end.
  - lia.
  - lia.
  - discriminate.
  - discriminate.
  - exact Hdraw.
  - exists s2. split; [exact Hrun|]. split; [exact Hdraw|].
    split; [vm_compute; discriminate|].
    split; [exact Hagain | exact Hvideo].
Defined.

(** The loop writes the rows from [start_y + row] on only, [todo] of them
    at most. *)
Lemma draw_rows_outside (todo : nat) : forall row start_x start_y s s1,
  draw_rows todo row start_x start_y s = Some s1 ->
  0 <= start_y -> 0 <= row ->
  start_y + row + Z.of_nat todo < 0x100 ->
  forall n : nat,
    (n < Z.to_nat (start_y + row) \/
     Z.to_nat (start_y + row) + todo <= n)%nat ->
    video_buffer s1 !! n = video_buffer s !! n.
Proof.
  induction todo as [|todo IH]; intros row sx sy s s1 H Hsy Hrow Hsum n Hn;
    simpl in H.
  - injection H as <-. reflexivity.
  - destruct (32 <=? u8 (sy + row)).
    + injection H as <-. reflexivity.
    + bind_inv H byte E.
      rewrite (u8_small (sy + row)) in H by lia.
      rewrite (u8_small (row + 1)) in H by lia.
      rewrite (IH _ _ _ _ _ H) by lia.
      destruct (Z.land _ _ =? 0); simpl;
        apply list_lookup_insert_ne; lia.
Qed.

(** X19: a sprite of height at most 15 changes no display row above its
    starting row [Vy mod 32] or from [Vy mod 32 + height] on: rows clip at
    the bottom and never wrap to the top. *)
Theorem draw_leaves_other_rows_alone
    (s s1 : State) (regx regy height : Z) (n : nat) :
  height <= 15 ->
  instruction_draw_sprite s regx regy height = Some s1 ->
  (Z.of_nat n < reg s regy mod 32 \/
   reg s regy mod 32 + height <= Z.of_nat n) ->
  video_buffer s1 !! n = video_buffer s !! n.
Proof.
  intros Hh H Hn. unfold instruction_draw_sprite in H.
  pose proof (Z.mod_pos_bound (reg s regy) 32 ltac:(lia)) as Hy.
  rewrite (u8_small (reg s regy mod 32)) in H by lia.
  rewrite (draw_rows_outside _ _ _ _ _ _ H) by lia.
  - reflexivity.
Qed.

Lemma draw_leaves_other_rows_alone_witness :
  exists s s1,
    run [0x60; 0x03; 0x61; 0x1E; 0xA0; 0x50; 0xD0; 0x15] 3 = Some s /\
    instruction_draw_sprite s 0 1 5 = Some s1 /\
    video_buffer s1 !! 0%nat = video_buffer s !! 0%nat.
Proof.
  eexists. eexists.
  match goal with |- run ?rom ?n = Some ?s /\ ?d = Some ?s1 /\ _ =>
    assert (Hrun : run rom n = Some s); [vm_compute; reflexivity|];
    assert (Hdraw : d = Some s1); [vm_compute; reflexivity|]
  end.
  split; [exact Hrun|]. split; [exact Hdraw|].
  apply (draw_leaves_other_rows_alone _ _ 0 1 5 0%nat);
    [lia | exact Hdraw | left; vm_compute; reflexivity].
Defined.

Lemma lxor_lxor_same (r m : Z) : Z.lxor (Z.lxor r m) r = m.
Proof.
  rewrite (Z.lxor_comm r m), Z.lxor_assoc, Z.lxor_nilpotent.
  apply Z.lxor_0_r.
Qed.

(** The flag after the loop: set to 1 if a lit pixel was flipped, left as
    it was otherwise. *)
Lemma draw_rows_collision (todo : nat) : forall row start_x start_y s s1,
  draw_rows todo row start_x start_y s = Some s1 ->
  0 <= start_y -> 0 <= row ->
  start_y + row + Z.of_nat todo < 0x100 ->
  length (regs_v s) = 16%nat ->
  (reg s1 0xF = 1 /\
   exists n : nat,
     Z.land (default 0 (video_buffer s !! n))
            (Z.lxor (default 0 (video_buffer s1 !! n))
                    (default 0 (video_buffer s !! n))) <> 0) \/
  (reg s1 0xF = reg s 0xF /\
   forall n : nat,
     Z.land (default 0 (video_buffer s !! n))
            (Z.lxor (default 0 (video_buffer s1 !! n))
                    (default 0 (video_buffer s !! n))) = 0).
Proof.
  induction todo as [|todo IH]; intros row sx sy s s1 H Hsy Hrow Hsum Hlen;
    simpl in H.
  - injection H as <-. right. split; [reflexivity|]. intros n.
    rewrite Z.lxor_nilpotent. apply Z.land_0_r.
  - destruct (32 <=? u8 (sy + row)).
    { injection H as <-. right. split; [reflexivity|]. intros n.
      rewrite Z.lxor_nilpotent. apply Z.land_0_r. }
    bind_inv H byte E.
    rewrite (u8_small (sy + row)) in H by lia.
    rewrite (u8_small (row + 1)) in H by lia.
    set (y := Z.to_nat (sy + row)) in *.
    set (mask := sprite_mask byte sx) in *.
    set (r := video_row s (sy + row)) in *.
    match type of H with draw_rows _ _ _ _ ?s' = _ => set (s0 := s') in * end.
    assert (Hv0 : video_buffer s0 = <[y := Z.lxor r mask]> (video_buffer s))
      by (unfold s0; destruct (Z.land r mask =? 0); reflexivity).
    assert (Hl0 : length (regs_v s0) = 16%nat)
      by (unfold s0; destruct (Z.land r mask =? 0); simpl;
          rewrite ?length_insert; exact Hlen).
    assert (Hy1 : video_buffer s1 !! y = video_buffer s0 !! y)
      by (apply (draw_rows_outside _ _ _ _ _ _ H); lia).
    (* what the loop did to row [y] as seen from [s] *)
    assert (Hhit_y :
              Z.land (default 0 (video_buffer s !! y))
                     (Z.lxor (default 0 (video_buffer s1 !! y))
                             (default 0 (video_buffer s !! y)))
              = Z.land r mask).
    { rewrite Hy1, Hv0. fold (video_row s (sy + row)). fold r.
      destruct (decide (y < length (video_buffer s))%nat) as [Hlt|Hge].
      - rewrite list_lookup_insert_eq by exact Hlt. simpl.
        rewrite lxor_lxor_same. reflexivity.
      - rewrite list_insert_ge by lia.
        assert (Hr0 : r = 0).
        { unfold r, video_row. fold y.
          rewrite (proj2 (lookup_ge_None _ _)) by lia. reflexivity. }
        rewrite Z.lxor_nilpotent, Z.land_0_r, Hr0. reflexivity. }
    (* and to the other rows *)
    assert (Hother : forall n, n <> y ->
              video_buffer s0 !! n = video_buffer s !! n)
      by (intros n Hn; rewrite Hv0; apply list_lookup_insert_ne; lia).
    assert (Hhit0_y :
              Z.land (default 0 (video_buffer s0 !! y))
                     (Z.lxor (default 0 (video_buffer s1 !! y))
                             (default 0 (video_buffer s0 !! y))) = 0)
      by (rewrite Hy1, Z.lxor_nilpotent; apply Z.land_0_r).
    destruct (IH _ _ _ _ _ H Hsy ltac:(lia) ltac:(lia) Hl0)
      as [[Hf [n Hn]] | [Hf Hnone]].
    + left. split; [exact Hf|].
      destruct (decide (n = y)) as [->|Hne].
      * rewrite Hhit0_y in Hn. contradiction.
      * exists n. rewrite <- (Hother n Hne). exact Hn.
    + destruct (Z.land r mask =? 0) eqn:Ehit.
      * apply Z.eqb_eq in Ehit. right. split.
        -- rewrite Hf. unfold s0. reflexivity.
        -- intros n. destruct (decide (n = y)) as [->|Hne].
           ++ rewrite Hhit_y. exact Ehit.
           ++ rewrite <- (Hother n Hne). apply Hnone.
      * apply Z.eqb_neq in Ehit. left. split.
        -- rewrite Hf. unfold s0.
           apply reg_set_reg_same. simpl. rewrite ?length_insert, Hlen. lia.
        -- exists y. rewrite Hhit_y. exact Ehit.
Qed.

(** X20: after a draw, VF is 1 if some display row had a lit pixel flipped
    by it, and 0 if no lit pixel of any row was flipped. *)
Theorem collision_flag_tells_pixel_turned_off
    (s s1 : State) (regx regy height : Z) :
  length (regs_v s) = 16%nat ->
  height <= 15 ->
  instruction_draw_sprite s regx regy height = Some s1 ->
  (reg s1 0xF = 1 /\
   exists n : nat,
     Z.land (default 0 (video_buffer s !! n))
            (Z.lxor (default 0 (video_buffer s1 !! n))
                    (default 0 (video_buffer s !! n))) <> 0) \/
  (reg s1 0xF = 0 /\
   forall n : nat,
     Z.land (default 0 (video_buffer s !! n))
            (Z.lxor (default 0 (video_buffer s1 !! n))
                    (default 0 (video_buffer s !! n))) = 0).
Proof.
  intros Hlen Hh H. unfold instruction_draw_sprite in H.
  pose proof (Z.mod_pos_bound (reg s regy) 32 ltac:(lia)) as Hy.
  rewrite (u8_small (reg s regy mod 32)) in H by lia.
  destruct (draw_rows_collision _ _ _ _ _ _ H) as [Hhit | [Hf Hnone]];
    try lia.
  - simpl. rewrite length_insert. exact Hlen.
  - left. exact Hhit.
  - right. split; [|exact Hnone].
    rewrite Hf. apply reg_set_reg_same. rewrite Hlen. lia.
Qed.

Lemma collision_flag_tells_pixel_turned_off_witness :
  exists s s1,
    run [0x60; 0x03; 0x61; 0x1E; 0xA0; 0x50; 0xD0; 0x15] 3 = Some s /\
    instruction_draw_sprite s 0 1 5 = Some s1 /\
    (reg s1 0xF = 1 \/ reg s1 0xF = 0).
Proof.
  eexists. eexists.
  match goal with |- run ?rom ?n = Some ?s /\ ?d = Some ?s1 /\ _ =>
    assert (Hrun : run rom n = Some s); [vm_compute; reflexivity|];
    assert (Hdraw : d = Some s1); [vm_compute; reflexivity|]
  end.
  split; [exact Hrun|]. split; [exact Hdraw|].
  match type of Hdraw with instruction_draw_sprite ?s _ _ _ = Some ?s1 =>
    destruct (collision_flag_tells_pixel_turned_off s s1 0 1 5)
      as [[Hf _] | [Hf _]]
  end.
  - vm_compute; reflexivity.
  - lia.
  - exact Hdraw.
  - left. exact Hf.
  - right. exact Hf.
Defined.

(** ** Rendering *)

Lemma convert_row_length (row : Z) (y todo : nat) : forall x result,
  length (convert_row row y todo x result) = length result.
Proof.
  induction todo as [|todo IH]; intros x result; cbn [convert_row];
    [reflexivity|].
  rewrite IH. unfold store_if. destruct (pixel_on row (Z.of_nat x));
    [apply length_insert | reflexivity].
Qed.

(** One row of the renderer writes the [todo] entries from [y * 64 + x]
    on and nothing else. *)
Lemma convert_row_lookup (row : Z) (y todo : nat) : forall x result i,
  convert_row row y todo x result !! i =
    if decide (y * 64 + x <= i < y * 64 + x + todo)%nat
    then (if pixel_on row (Z.of_nat (i - y * 64))
          then (fun _ => 0xFFFFFFFF) <$> result !! i
          else result !! i)
    else result !! i.
Proof.
  induction todo as [|todo IH]; intros x result i; cbn [convert_row].
  - destruct (decide _) as [H|H]; [lia|reflexivity].
  - rewrite IH. unfold store_if.
    destruct (decide (y * 64 + S x <= i < y * 64 + S x + todo)%nat) as [H1|H1];
      destruct (decide (y * 64 + x <= i < y * 64 + x + S todo)%nat) as [H2|H2];
      try lia.
    + destruct (pixel_on row (Z.of_nat x));
        [rewrite list_lookup_insert_ne by lia|]; reflexivity.
    + assert (i = y * 64 + x)%nat as -> by lia.
      replace (y * 64 + x - y * 64)%nat with x by lia.
      destruct (pixel_on row (Z.of_nat x)); [|reflexivity].
      destruct (decide (y * 64 + x < length result)%nat) as [Hlt|Hge].
      * rewrite list_lookup_insert_eq by exact Hlt.
        destruct (lookup_lt_is_Some_2 result _ Hlt) as [v ->]. reflexivity.
      * rewrite list_insert_ge by lia.
        rewrite (proj2 (lookup_ge_None _ _)) by lia. reflexivity.
    + destruct (pixel_on row (Z.of_nat x));
        [rewrite list_lookup_insert_ne by lia|]; reflexivity.
Qed.

Lemma convert_rows_S (video : list Z) (todo y : nat) (result : list Z) :
  convert_rows video (S todo) y result =
  convert_rows video todo (S y)
    (convert_row (default 0 (video !! y)) y 64 0 result).
Proof. reflexivity. Qed.

Lemma convert_rows_length (video : list Z) (todo : nat) : forall y result,
  length (convert_rows video todo y result) = length result.
Proof.
  induction todo as [|todo IH]; intros y result; [reflexivity|].
  rewrite convert_rows_S, IH. apply convert_row_length.
Qed.

Lemma convert_rows_lookup (video : list Z) (todo : nat) : forall y0 result i,
  convert_rows video todo y0 result !! i =
    if decide (y0 * 64 <= i < (y0 + todo) * 64)%nat
    then (if pixel_on (default 0 (video !! (i / 64)%nat))
                      (Z.of_nat (i mod 64))
          then (fun _ => 0xFFFFFFFF) <$> result !! i
          else result !! i)
    else result !! i.
Proof.
  induction todo as [|todo IH]; intros y0 result i.
  - change (convert_rows video 0 y0 result) with result.
    destruct (decide _) as [H|H]; [lia|reflexivity].
  - rewrite convert_rows_S, IH, convert_row_lookup.
    destruct (decide (S y0 * 64 <= i < (S y0 + todo) * 64)%nat) as [H1|H1];
      destruct (decide (y0 * 64 + 0 <= i < y0 * 64 + 0 + 64)%nat) as [H2|H2];
      destruct (decide (y0 * 64 <= i < (y0 + S todo) * 64)%nat) as [H3|H3];
      try lia; try reflexivity.
    assert (Hq : (i / 64 = y0)%nat).
    { symmetry. apply (Nat.div_unique i 64 y0 (i - y0 * 64)); lia. }
    assert (Hr : (i mod 64 = i - y0 * 64)%nat).
    { symmetry. apply (Nat.mod_unique i 64 y0 (i - y0 * 64)); lia. }
    rewrite Hq, Hr. reflexivity.
Qed.

(** X21: on a display of 32 rows [convert_video_to_sdl] returns 64 * 32
    entries, and for a column [x < 64] of a row [y < 32] the entry
    [y * 64 + x] is 0xFFFFFFFF when bit [63 - x] of row [y] is set and 0
    when it is not. *)
Theorem convert_video_to_sdl_pixels (video : list Z) (x y : nat) :
  length video = 32%nat ->
  (x < 64)%nat -> (y < 32)%nat ->
  length (convert_video_to_sdl video) = 2048%nat /\
  convert_video_to_sdl video !! (y * 64 + x)%nat =
    Some (if pixel_on (default 0 (video !! y)) (Z.of_nat x)
          then 0xFFFFFFFF else 0) /\
  pixel_on (default 0 (video !! y)) (Z.of_nat x) =
    Z.testbit (default 0 (video !! y)) (63 - Z.of_nat x).
Proof.
  intros _ Hx Hy. unfold convert_video_to_sdl. split; [|split].
  - rewrite convert_rows_length. apply length_replicate.
  - rewrite convert_rows_lookup.
    destruct (decide (0 * 64 <= y * 64 + x < (0 + 32) * 64)%nat) as [H|H];
      [|lia].
    assert (Hq : ((y * 64 + x) / 64 = y)%nat).
    { symmetry. apply (Nat.div_unique _ 64 y x); lia. }
    assert (Hr : ((y * 64 + x) mod 64 = x)%nat).
    { symmetry. apply (Nat.mod_unique _ 64 y x); lia. }
    rewrite Hq, Hr.
    rewrite lookup_replicate_2 by lia.
    destruct (pixel_on _ _); reflexivity.
  - apply pixel_on_testbit. lia.
Qed.

Lemma convert_video_to_sdl_pixels_witness :
  convert_video_to_sdl (<[2%nat := 0x4000000000000000]> (replicate 32 0))
    !! (2 * 64 + 1)%nat = Some 0xFFFFFFFF.
Proof.
  destruct (convert_video_to_sdl_pixels
              (<[2%nat := 0x4000000000000000]> (replicate 32 0)) 1 2)
    as [_ [H _]].
  - vm_compute. reflexivity.
  - lia.
  - lia.
  - exact H.
Defined.

(** ** Well-formed states are kept *)

Lemma forallb_Forall_range (f : Z -> bool) (P : Z -> Prop) (l : list Z) :
  (forall v, f v = true <-> P v) -> forallb f l = true <-> Forall P l.
Proof.
  intros Hf. rewrite forallb_forall, Forall_forall. split.
  - intros H v Hv. apply Hf, H. apply list_elem_of_In. exact Hv.
  - intros H v Hv. apply Hf, H. apply list_elem_of_In. exact Hv.
Qed.

Lemma is_u64_spec (z : Z) : is_u64 z = true <-> row_range z.
Proof.
  unfold is_u64, row_range. rewrite andb_true_iff, Z.leb_le, Z.ltb_lt. tauto.
Qed.

Lemma wf_state_Valid (s : State) : wf_state s = true <-> Valid s.
Proof.
  unfold wf_state. rewrite !andb_true_iff, !Z.eqb_eq.
  rewrite !is_u16_spec, !is_u8_spec.
  rewrite !(forallb_Forall_range is_u8 byte_range) by apply is_u8_spec.
  rewrite (forallb_Forall_range is_u64 row_range) by apply is_u64_spec.
  split.
  - intros [[[[[[[[[[[Hm Hr] Hv] Hmb] Hrb] Hvb] Hd] Hs] Hk] Hpc] Hsp] Hi].
    constructor; try assumption.
    + rewrite <- Hm. symmetry. apply Nat2Z.id.
    + apply Nat2Z.inj. exact Hr.
    + apply Nat2Z.inj. exact Hv.
  - intros [Hm Hr Hv Hmb Hrb Hvb Hd Hs Hk Hpc Hsp Hi].
    repeat split; try assumption;
      try apply Hd; try apply Hs; try apply Hk; try apply Hpc;
      try apply Hsp; try apply Hi.
    + rewrite Hm. unfold MEMORY_SIZE. reflexivity.
    + rewrite Hr. reflexivity.
    + rewrite Hv. reflexivity.
Qed.

Create HintDb chip8.

Lemma u8_range (z : Z) : byte_range (u8 z).
Proof. unfold byte_range, u8. apply Z.mod_pos_bound. lia. Qed.

Lemma u16_range (z : Z) : word_range (u16 z).
Proof. unfold word_range, u16. apply Z.mod_pos_bound. lia. Qed.

Lemma imm_nn_range (opcode : Z) : byte_range (imm_nn opcode).
Proof. apply u8_range. Qed.

Lemma imm_nnn_range (opcode : Z) : word_range (imm_nnn opcode).
Proof. apply u16_range. Qed.

Lemma c_bool_range (b : bool) : byte_range (c_bool b).
Proof. unfold byte_range. destruct b; simpl; lia. Qed.

Lemma byte_zero : byte_range 0.
Proof. unfold byte_range. lia. Qed.

Lemma byte_one : byte_range 1.
Proof. unfold byte_range. lia. Qed.

Lemma reg_valid (s : State) (i : Z) : Valid s -> byte_range (reg s i).
Proof.
  intros V. unfold reg.
  destruct (regs_v s !! Z.to_nat i) as [v|] eqn:E; simpl.
  - eapply Forall_lookup_1; [apply (valid_regs s V) | exact E].
  - apply byte_zero.
Qed.

Lemma video_row_valid (s : State) (y : Z) : Valid s -> row_range (video_row s y).
Proof.
  intros V. unfold video_row.
  destruct (video_buffer s !! Z.to_nat y) as [v|] eqn:E; simpl.
  - eapply Forall_lookup_1; [apply (valid_video s V) | exact E].
  - unfold row_range. lia.
Qed.

(** Bitwise operations stay within the width of their operands. *)
Lemma bitwise_range (f : Z -> Z -> Z) (g : bool -> bool -> bool) (k a b : Z) :
  (forall x y n, 0 <= n -> Z.testbit (f x y) n = g (Z.testbit x n) (Z.testbit y n)) ->
  g false false = false ->
  (forall x y, 0 <= x -> 0 <= y -> 0 <= f x y) ->
  0 <= k -> 0 <= a < 2 ^ k -> 0 <= b < 2 ^ k -> 0 <= f a b < 2 ^ k.
Proof.
  intros Hspec Hg Hpos Hk Ha Hb. split; [apply Hpos; lia|].
  apply below_pow2_by_bits; [lia | apply Hpos; lia|].
  intros n Hn. rewrite Hspec by lia.
  rewrite (testbit_above a k n), (testbit_above b k n) by lia. exact Hg.
Qed.

Lemma lor_range (k a b : Z) :
  0 <= k -> 0 <= a < 2 ^ k -> 0 <= b < 2 ^ k -> 0 <= Z.lor a b < 2 ^ k.
Proof.
  apply (bitwise_range Z.lor orb).
  - intros x y n _. apply Z.lor_spec.
  - reflexivity.
  - intros x y Hx Hy. apply Z.lor_nonneg. split; assumption.
Qed.

Lemma land_range (k a b : Z) :
  0 <= k -> 0 <= a < 2 ^ k -> 0 <= b < 2 ^ k -> 0 <= Z.land a b < 2 ^ k.
Proof.
  apply (bitwise_range Z.land andb).
  - intros x y n _. apply Z.land_spec.
  - reflexivity.
  - intros x y Hx Hy. apply Z.land_nonneg. left. assumption.
Qed.

Lemma lxor_range (k a b : Z) :
  0 <= k -> 0 <= a < 2 ^ k -> 0 <= b < 2 ^ k -> 0 <= Z.lxor a b < 2 ^ k.
Proof.
  apply (bitwise_range Z.lxor xorb).
  - intros x y n _. apply Z.lxor_spec.
  - reflexivity.
  - intros x y Hx Hy. apply Z.lxor_nonneg. split; intros _; assumption.
Qed.

Lemma byte_lor (a b : Z) : byte_range a -> byte_range b -> byte_range (Z.lor a b).
Proof. apply (lor_range 8). lia. Qed.

Lemma byte_land (a b : Z) : byte_range a -> byte_range b -> byte_range (Z.land a b).
Proof. apply (land_range 8). lia. Qed.

Lemma byte_lxor (a b : Z) : byte_range a -> byte_range b -> byte_range (Z.lxor a b).
Proof. apply (lxor_range 8). lia. Qed.

Lemma row_lxor (a b : Z) : row_range a -> row_range b -> row_range (Z.lxor a b).
Proof. apply (lxor_range 64). lia. Qed.

Lemma shiftr_range (a n bound : Z) :
  0 <= n -> 0 <= a < bound -> 0 <= Z.shiftr a n < bound.
Proof.
  intros Hn Ha. rewrite Z.shiftr_div_pow2 by exact Hn.
  assert (0 < 2 ^ n) by (apply Z.pow_pos_nonneg; lia).
  split; [apply Z.div_pos; lia|].
  apply Z.le_lt_trans with a; [|lia].
  apply Z.div_le_upper_bound; [lia|]. nia.
Qed.

Lemma byte_shiftr (a n : Z) : 0 <= n -> byte_range a -> byte_range (Z.shiftr a n).
Proof. intros Hn Ha. apply shiftr_range; assumption. Qed.

Lemma sprite_mask_range (byte start_x : Z) :
  0 <= start_x -> row_range (sprite_mask byte start_x).
Proof.
  intros Hx. unfold sprite_mask. apply shiftr_range; [exact Hx|].
  unfold u64. apply Z.mod_pos_bound. lia.
Qed.

#[local] Hint Resolve u8_range u16_range imm_nn_range imm_nnn_range
  c_bool_range byte_zero byte_one reg_valid video_row_valid
  byte_lor byte_land byte_lxor row_lxor : chip8.

(** Field updates that keep a state well-formed. *)
Lemma Valid_set_pc (s : State) (a : Z) :
  Valid s -> word_range a -> Valid (set_pc s a).
Proof. intros [] Ha. constructor; assumption. Qed.

Lemma Valid_set_sp (s : State) (a : Z) :
  Valid s -> word_range a -> Valid (set_sp s a).
Proof. intros [] Ha. constructor; assumption. Qed.

Lemma Valid_set_reg_i (s : State) (a : Z) :
  Valid s -> word_range a -> Valid (set_reg_i s a).
Proof. intros [] Ha. constructor; assumption. Qed.

Lemma Valid_set_delay_timer (s : State) (t : Z) :
  Valid s -> byte_range t -> Valid (set_delay_timer s t).
Proof. intros [] Ha. constructor; assumption. Qed.

Lemma Valid_set_sound_timer (s : State) (t : Z) :
  Valid s -> byte_range t -> Valid (set_sound_timer s t).
Proof. intros [] Ha. constructor; assumption. Qed.

Lemma Valid_set_keycode (s : State) (k : Z) :
  Valid s -> byte_range k -> Valid (set_keycode s k).
Proof. intros [] Ha. constructor; assumption. Qed.

Lemma Valid_set_reg (s : State) (i v : Z) :
  Valid s -> byte_range v -> Valid (set_reg s i v).
Proof.
  intros [] Hv. constructor; simpl; try assumption.
  - rewrite length_insert. assumption.
  - apply Forall_insert; assumption.
Qed.

Lemma Valid_set_video_row (s : State) (y v : Z) :
  Valid s -> row_range v -> Valid (set_video_row s y v).
Proof.
  intros [] Hv. constructor; simpl; try assumption.
  - rewrite length_insert. assumption.
  - apply Forall_insert; assumption.
Qed.

Lemma Valid_set_memory (s : State) (m : list Z) :
  Valid s -> length m = length (memory s) -> Forall byte_range m ->
  Valid (set_memory s m).
Proof.
  intros [] Hl Hm. constructor; simpl; try assumption. congruence.
Qed.

Lemma Valid_set_regs_v (s : State) (r : list Z) :
  Valid s -> length r = length (regs_v s) -> Forall byte_range r ->
  Valid (set_regs_v s r).
Proof.
  intros [] Hl Hm. constructor; simpl; try assumption. congruence.
Qed.

#[local] Hint Resolve Valid_set_pc Valid_set_sp Valid_set_reg_i
  Valid_set_delay_timer Valid_set_sound_timer Valid_set_keycode
  Valid_set_reg Valid_set_video_row : chip8.

Lemma Forall_poke_bytes (P : Z -> Prop) (bs : list Z) :
  forall (m : list Z) (a : nat),
    Forall P m -> Forall P bs -> Forall P (poke_bytes m a bs).
Proof.
  induction bs as [|b bs IH]; intros m a Hm Hbs; simpl; [exact Hm|].
  apply Forall_cons in Hbs as [Hb Hbs].
  apply IH; [apply Forall_insert; assumption | exact Hbs].
Qed.

Lemma memcpy_to_valid (m m' : list Z) (a : Z) (bs : list Z) :
  memcpy_to m a bs = Some m' ->
  Forall byte_range m -> Forall byte_range bs ->
  length m' = length m /\ Forall byte_range m'.
Proof.
  unfold memcpy_to. destruct (in_bounds _ _ _); [|discriminate].
  intros [= <-] Hm Hbs. split.
  - apply length_poke_bytes.
  - apply Forall_poke_bytes; assumption.
Qed.

Lemma store_valid (m m' : list Z) (a v : Z) :
  store m a v = Some m' -> Forall byte_range m -> byte_range v ->
  length m' = length m /\ Forall byte_range m'.
Proof.
  unfold store. destruct (_ && _); [|discriminate].
  intros [= <-] Hm Hv. split.
  - apply length_insert.
  - apply Forall_insert; assumption.
Qed.

Lemma memcpy_from_valid (m bs : list Z) (a : Z) (n : nat) :
  memcpy_from m a n = Some bs -> Forall byte_range m -> Forall byte_range bs.
Proof.
  unfold memcpy_from. destruct (in_bounds _ _ _); [|discriminate].
  intros [= <-] Hm. apply Forall_take, Forall_drop. exact Hm.
Qed.

Lemma byte_low (v : Z) : byte_range (Z.land v 0xFF).
Proof.
  change 0xFF with (Z.ones 8). rewrite Z.land_ones by lia.
  unfold byte_range. apply Z.mod_pos_bound. lia.
Qed.

Lemma byte_high (v : Z) : word_range v -> byte_range (Z.shiftr v 8).
Proof.
  intros Hv. unfold word_range, byte_range in *.
  rewrite Z.shiftr_div_pow2 by lia. change (2 ^ 8) with 256.
  split; [apply Z.div_pos; lia|]. apply Z.div_lt_upper_bound; lia.
Qed.

Lemma push_valid (s s' : State) (value : Z) :
  state_push_to_stack s value = Some s' -> Valid s -> Valid s'.
Proof.
  unfold state_push_to_stack. intros H V.
  bind_inv H m E. injection H as <-.
  destruct (memcpy_to_valid _ _ _ _ E (valid_memory s V)) as [Hl Hm].
  { constructor; [apply byte_low|].
    constructor; [|constructor].
    apply byte_high. unfold flip_endianness. apply u16_range. }
  apply Valid_set_sp; [|apply u16_range].
  apply Valid_set_memory; assumption.
Qed.

Lemma pop_valid (s s' : State) (address : Z) :
  state_pop_from_stack s = Some (address, s') ->
  Valid s -> Valid s' /\ word_range address.
Proof.
  unfold state_pop_from_stack. intros H V.
  bind_inv H hi E1. bind_inv H lo E2. bind_inv H m E3.
  injection H as <- <-. simpl in E3.
  destruct (memcpy_to_valid _ _ _ _ E3 (valid_memory s V)) as [Hl Hm].
  { constructor; [apply byte_zero|].
    constructor; [apply byte_zero | constructor]. }
  split; [|apply u16_range].
  apply Valid_set_memory; [|assumption|assumption].
  apply Valid_set_sp; [exact V | apply u16_range].
Qed.

Lemma draw_rows_valid (todo : nat) : forall row start_x start_y s s',
  draw_rows todo row start_x start_y s = Some s' ->
  0 <= start_x -> Valid s -> Valid s'.
Proof.
  induction todo as [|todo IH]; intros row sx sy s s' H Hx V; simpl in H.
  - injection H as <-. exact V.
  - destruct (32 <=? u8 (sy + row)).
    + injection H as <-. exact V.
    + bind_inv H byte E. apply IH in H; [exact H | exact Hx|].
      assert (V1 : Valid (set_video_row s (u8 (sy + row))
                (Z.lxor (video_row s (u8 (sy + row))) (sprite_mask byte sx)))).
      { apply Valid_set_video_row; [exact V|].
        apply row_lxor; [apply video_row_valid; exact V|].
        apply sprite_mask_range. exact Hx. }
      destruct (Z.land _ _ =? 0); auto with chip8.
Qed.

Lemma instruction_draw_sprite_valid (s s' : State) (x y n : Z) :
  instruction_draw_sprite s x y n = Some s' -> Valid s -> Valid s'.
Proof.
  unfold instruction_draw_sprite. intros H V.
  apply draw_rows_valid in H; [exact H | | auto with chip8].
  pose proof (u8_range (reg s x mod 64)) as Hr. unfold byte_range in Hr. lia.
Qed.

Lemma instruction_decimal_digits_valid (s s' : State) (v : Z) :
  instruction_decimal_digits s v = Some s' -> Valid s -> Valid s'.
Proof.
  unfold instruction_decimal_digits. intros H V.
  bind_inv H m1 E1. bind_inv H m2 E2. bind_inv H m3 E3. injection H as <-.
  destruct (store_valid _ _ _ _ E1 (valid_memory s V) (u8_range _))
    as [Hl1 Hm1].
  destruct (store_valid _ _ _ _ E2 Hm1 (u8_range _)) as [Hl2 Hm2].
  destruct (store_valid _ _ _ _ E3 Hm2 (u8_range _)) as [Hl3 Hm3].
  apply Valid_set_memory; [exact V | congruence | exact Hm3].
Qed.

Lemma skip_if_valid (s : State) (c : bool) :
  Valid s -> Valid (skip_if s c).1.1.
Proof. intros V. destruct c; simpl; auto with chip8. Qed.

Lemma exec_8_valid (s : State) (opcode : Z) :
  Valid s -> Valid (exec_8 s opcode).1.1.
Proof.
  intros V. unfold exec_8.
  repeat break_match; simpl; auto 8 using byte_shiftr with chip8 lia.
Qed.

Lemma exec_E_valid (s : State) (opcode : Z) :
  Valid s -> Valid (exec_E s opcode).1.1.
Proof.
  intros V. unfold exec_E.
  repeat break_match; try apply skip_if_valid; simpl; auto with chip8.
Qed.

Lemma exec_F_valid (s : State) (opcode : Z) :
  forall s' should_step out,
    exec_F s opcode = Some (s', should_step, out) -> Valid s -> Valid s'.
Proof.
  intros s' b out. unfold exec_F.
  break_switch;
    try (intros [= <- _ _] V; simpl;
         auto using valid_delay_timer, valid_keycode with chip8; fail);
    intros H V.
  - bind_inv H s0 E. injection H as <- _ _.
    eapply instruction_decimal_digits_valid; eassumption.
  - bind_inv H m E. injection H as <- _ _.
    destruct (memcpy_to_valid _ _ _ _ E (valid_memory s V)) as [Hl Hm].
    { apply Forall_take. apply (valid_regs s V). }
    apply Valid_set_memory; assumption.
  - bind_inv H bs E. injection H as <- _ _.
    apply Valid_set_regs_v; [exact V | apply length_poke_bytes|].
    apply Forall_poke_bytes; [apply (valid_regs s V)|].
    eapply memcpy_from_valid; [exact E | apply (valid_memory s V)].
Qed.

Lemma instruction_clear_video_valid (s : State) :
  Valid s -> Valid (instruction_clear_video s).
Proof.
  intros []. constructor; try assumption; try reflexivity.
  change (Forall row_range (replicate 32 0)).
  apply Forall_replicate. unfold row_range. lia.
Qed.

Lemma outcome_valid (o : Outcome) (s' : State) (b : bool) (out : list Diag) :
  o = (s', b, out) -> Valid o.1.1 -> Valid s'.
Proof. intros ->. exact id. Qed.

Lemma exec_valid (rand : Z) (s : State) (opcode : Z) :
  forall s' should_step out,
    exec rand s opcode = Some (s', should_step, out) -> Valid s -> Valid s'.
Proof.
  intros s' b out. unfold exec.
  break_switch;
    try (intros [= <- _ _] V; simpl;
         auto using instruction_clear_video_valid with chip8; fail);
    try (intros [= H] V; apply (outcome_valid _ _ _ _ H);
         first [ apply skip_if_valid | apply exec_8_valid
               | apply exec_E_valid ]; exact V);
    intros H V.
  - bind_inv H r E. destruct r as [address s0]. injection H as <- _ _.
    destruct (pop_valid _ _ _ E V) as [V0 Ha].
    apply Valid_set_pc; assumption.
  - eapply exec_F_valid; eassumption.
  - bind_inv H s0 E. injection H as <- _ _.
    eapply instruction_draw_sprite_valid; eassumption.
  - bind_inv H s0 E. injection H as <- _ _.
    apply Valid_set_pc; [|apply imm_nnn_range].
    eapply push_valid; eassumption.
Qed.

Lemma state_step_valid (rand : Z) (s s' : State) (out : list Diag) :
  state_step rand s = Some (s', out) -> Valid s -> Valid s'.
Proof.
  unfold state_step. intros H V.
  destruct (MEMORY_SIZE - 1 <=? pc s).
  { injection H as <- _. exact V. }
  bind_inv H opcode Ef. bind_inv H r E. destruct r as [[s1 b] out1].
  injection H as <- _.
  pose proof (exec_valid _ _ _ _ _ _ E V) as V1.
  destruct b; auto with chip8.
Qed.

(** X4: a step from a well-formed state, when it succeeds, gives a
    well-formed state: the buffers keep their sizes and every register,
    timer, memory byte, display row and pointer stays within its C type. *)
Theorem step_keeps_state_well_formed
    (rand : Z) (s s' : State) (out : list Diag) :
  wf_state s = true ->
  state_step rand s = Some (s', out) ->
  wf_state s' = true.
Proof.
  intros Hwf H. apply wf_state_Valid. apply wf_state_Valid in Hwf.
  eapply state_step_valid; eassumption.
Qed.

Lemma step_keeps_state_well_formed_witness :
  exists s s',
    run [0xC3; 0xFF; 0xD3; 0x35] 1 = Some s /\
    state_step 0 s = Some (s', []) /\
    wf_state s' = true.
Proof.
  eexists. eexists.
  match goal with |- run ?rom ?n = Some ?s /\ ?d = Some (?s', _) /\ _ =>
    assert (Hrun : run rom n = Some s); [vm_compute; reflexivity|];
    assert (Hstep : d = Some (s', [])); [vm_compute; reflexivity|]
  end.
  split; [exact Hrun|]. split; [exact Hstep|].
  match type of Hstep with state_step _ ?s = Some (?s', _) =>
    apply (step_keeps_state_well_formed 0 s s' [])
  end.
  - vm_compute; reflexivity.
  - exact Hstep.
Defined.

(** ** Reachable states *)

Lemma state_init_valid : Valid state_init.
Proof. apply wf_state_Valid. vm_compute. reflexivity. Qed.

Lemma load_rom_valid (s s' : State) (data : list Z) :
  load_rom s data = Some s' -> Forall byte_range data -> Valid s -> Valid s'.
Proof.
  unfold load_rom. destruct (_ || _); [discriminate|].
  intros H Hd V. bind_inv H m E. injection H as <-.
  destruct (memcpy_to_valid _ _ _ _ E (valid_memory s V) Hd) as [Hl Hm].
  apply Valid_set_memory; assumption.
Qed.

Lemma state_steps_valid (n : nat) :
  forall (rand : nat -> Z) (s s' : State) (out : list Diag),
    state_steps rand n s = Some (s', out) -> Valid s -> Valid s'.
Proof.
  induction n as [|n IH]; intros rand s s' out H V; simpl in H.
  - injection H as <- _. exact V.
  - bind_inv H r E. destruct r as [s1 out1].
    bind_inv H r' E'. destruct r' as [s2 out2].
    injection H as <- _.
    eapply IH; [exact E'|]. eapply state_step_valid; eassumption.
Qed.

(** X3: every state reached from [state_init] by loading a ROM of bytes and
    running any number of steps is well-formed. *)
Theorem reachable_states_are_well_formed
    (rom : list Z) (rand : nat -> Z) (n : nat)
    (s0 s : State) (out : list Diag) :
  forallb is_u8 rom = true ->
  load_rom state_init rom = Some s0 ->
  state_steps rand n s0 = Some (s, out) ->
  wf_state s = true.
Proof.
  intros Hrom Hload Hsteps. apply wf_state_Valid.
  eapply state_steps_valid; [exact Hsteps|].
  eapply load_rom_valid; [exact Hload | | apply state_init_valid].
  apply (forallb_Forall_range is_u8 byte_range); [apply is_u8_spec|].
  exact Hrom.
Qed.

Lemma reachable_states_are_well_formed_witness :
  exists s0 s out,
    load_rom state_init [0x60; 0xFF; 0x70; 0x02; 0xA2; 0x00; 0xD0; 0x05]
      = Some s0 /\
    state_steps (fun _ => 0) 4 s0 = Some (s, out) /\
    wf_state s = true.
Proof.
  eexists. eexists. eexists.
  match goal with |- ?l = Some ?s0 /\ ?r = Some (?s, ?out) /\ _ =>
    assert (Hload : l = Some s0); [vm_compute; reflexivity|];
    assert (Hsteps : r = Some (s, out)); [vm_compute; reflexivity|]
  end.
  split; [exact Hload|]. split; [exact Hsteps|].
  eapply (reachable_states_are_well_formed _ (fun _ => 0) 4);
    [|exact Hload|exact Hsteps].
  vm_compute; reflexivity.
Defined.

(** ** The loop of main *)

Lemma tick_timers_valid (s : State) : Valid s -> Valid (tick_timers s).
Proof.
  intros V. unfold tick_timers.
  destruct (0 <? delay_timer s);
    destruct (0 <? sound_timer _); auto with chip8.
Qed.

Lemma tick_timers_end_of_program (s : State) :
  end_of_program (tick_timers s) = end_of_program s.
Proof.
  unfold tick_timers.
  destruct (0 <? delay_timer s); destruct (0 <? sound_timer _); reflexivity.
Qed.

Lemma fold_handle_event_end_of_program (events : list Event) :
  forall sr : State * bool,
    end_of_program (fold_left handle_event events sr).1 = end_of_program sr.1.
Proof.
  induction events as [|e events IH]; intros sr; cbn [fold_left].
  - reflexivity.
  - rewrite IH. destruct sr as [s r], e; reflexivity.
Qed.

(** X6: one turn of the loop of [main] started with [end_of_program] false
    ends with it false, and stops the loop exactly when a quit event was
    queued: the interpreter never ends the program by itself. *)
Theorem main_loop_stops_only_on_quit
    (events : list Event) (tick : bool) (rand : Z)
    (s s' : State) (is_running : bool) (out : list Diag) :
  end_of_program s = false ->
  main_iteration events tick rand s = Some (s', is_running, out) ->
  end_of_program s' = false /\
  (is_running = false <-> In SDL_QUIT events).
Proof.
  intros He H. unfold main_iteration in H.
  pose proof (poll_events_from events (s, true)) as Hq. simpl in Hq.
  pose proof (fold_handle_event_end_of_program events (s, true)) as Hp.
  simpl in Hp. unfold poll_events in H.
  destruct (fold_left handle_event events (s, true)) as [s1 r] eqn:Ef.
  simpl in Hq, Hp. rewrite He in Hp.
  destruct r; simpl in H.
  - bind_inv H p E. destruct p as [s2 out2]. injection H as <- <- _.
    apply state_step_end_of_program in E.
    assert (He2 : end_of_program s2 = false).
    { rewrite E. destruct tick; [rewrite tick_timers_end_of_program|];
        exact Hp. }
    split; [exact He2|]. rewrite He2. simpl.
    split; [discriminate|]. intros Hin.
    destruct Hq as [Hq _]. destruct (Hq eq_refl) as [_ Hn]. contradiction.
  - injection H as <- <- _. split; [exact Hp|].
    split; [intros _|reflexivity].
    assert (Hdec : forall a b : Event, {a = b} + {a <> b})
      by (repeat decide equality).
    destruct (in_dec Hdec SDL_QUIT events) as [Hin|Hn]; [exact Hin|].
    destruct Hq as [_ Hq]. discriminate (Hq (conj eq_refl Hn)).
Qed.

Lemma main_loop_stops_only_on_quit_witness :
  exists s s' out,
    run [0x1F; 0xFF] 1 = Some s /\
    main_iteration [SDL_KEYDOWN SDLK_a; SDL_KEYUP] true 0 s
      = Some (s', true, out) /\
    end_of_program s' = false.
Proof.
  eexists. eexists. eexists.
  match goal with |- ?l = Some ?s /\ ?r = Some (?s', _, ?out) /\ _ =>
    assert (Hrun : l = Some s); [vm_compute; reflexivity|];
    assert (Hit : r = Some (s', true, out)); [vm_compute; reflexivity|]
  end.
  split; [exact Hrun|]. split; [exact Hit|].
  match type of Hit with main_iteration ?ev ?t ?r ?s = Some (?s', ?b, ?out) =>
    refine (proj1 (main_loop_stops_only_on_quit ev t r s s' b out _ Hit))
  end.
  vm_compute; reflexivity.
Defined.

Lemma handle_event_valid (sr : State * bool) (e : Event) :
  Valid sr.1 -> Valid (handle_event sr e).1.
Proof.
  destruct sr as [s r]. simpl. intros V.
  destruct e; simpl; try exact V.
  - unfold key_down. auto with chip8.
  - unfold key_up. apply Valid_set_keycode; [exact V|].
    unfold byte_range. lia.
Qed.

Lemma fold_handle_event_valid (events : list Event) :
  forall sr : State * bool,
    Valid sr.1 -> Valid (fold_left handle_event events sr).1.
Proof.
  induction events as [|e events IH]; intros sr V; cbn [fold_left].
  - exact V.
  - apply IH, handle_event_valid, V.
Qed.

(** X5: one turn of the loop of [main] (events, timer tick, step) keeps a
    well-formed state well-formed. *)
Theorem main_iteration_keeps_state_well_formed
    (events : list Event) (tick : bool) (rand : Z)
    (s s' : State) (is_running : bool) (out : list Diag) :
  wf_state s = true ->
  main_iteration events tick rand s = Some (s', is_running, out) ->
  wf_state s' = true.
Proof.
  intros Hwf H. apply wf_state_Valid. apply wf_state_Valid in Hwf.
  unfold main_iteration, poll_events in H.
  pose proof (fold_handle_event_valid events (s, true) Hwf) as V1.
  destruct (fold_left handle_event events (s, true)) as [s1 r].
  simpl in V1. destruct r; simpl in H.
  - bind_inv H p E. destruct p as [s2 out2]. injection H as <- _ _.
    eapply state_step_valid; [exact E|].
    destruct tick; [apply tick_timers_valid|]; exact V1.
  - injection H as <- _ _. exact V1.
Qed.

Lemma main_iteration_keeps_state_well_formed_witness :
  exists s s' out,
    run [0xF0; 0x0A; 0xF0; 0x15] 0 = Some s /\
    main_iteration [SDL_KEYDOWN SDLK_c] true 0 s = Some (s', true, out) /\
    wf_state s' = true.
Proof.
  eexists. eexists. eexists.
  match goal with |- ?l = Some ?s /\ ?r = Some (?s', _, ?out) /\ _ =>
    assert (Hrun : l = Some s); [vm_compute; reflexivity|];
    assert (Hit : r = Some (s', true, out)); [vm_compute; reflexivity|]
  end.
  split; [exact Hrun|]. split; [exact Hit|].
  match type of Hit with main_iteration ?ev ?t ?r ?s = Some (?s', ?b, ?out) =>
    apply (main_iteration_keeps_state_well_formed ev t r s s' b out);
      [|exact Hit]
  end.
  vm_compute; reflexivity.
Defined.

(** ** Clearing the display *)

Lemma pixel_on_zero (x : Z) : 0 <= x <= 63 -> pixel_on 0 x = false.
Proof.
  intros Hx. rewrite pixel_on_testbit by exact Hx. apply Z.bits_0.
Qed.

(** X22: 00E0 sets the 32 display rows to zero and moves the program counter
    by 2, changing nothing else, and the pixel array rendered from the
    result is all zero. *)
Theorem clear_display_blanks_the_screen (rand : Z) (s : State) :
  pc s < MEMORY_SIZE - 1 ->
  fetch s = Some 0x00E0 ->
  exists s',
    state_step rand s = Some (s', []) /\
    s' = set_pc (set_video_buffer s (replicate 32 0)) (pc s + 2) /\
    convert_video_to_sdl (video_buffer s') = replicate (64 * 32) 0.
Proof.
  intros Hpc Hf. eexists. split; [|split; [reflexivity|]].
  - rewrite (state_step_fetch _ _ _ Hpc Hf).
    unfold exec. change (nibble1 224) with 0. cbv beta iota zeta.
    unfold advance, instruction_clear_video. cbn [bind].
    change (pc (set_video_buffer s (replicate 32 0))) with (pc s).
    rewrite (pc_plus_small s _ 2 Hpc Hf) by lia. reflexivity.
  - change (video_buffer (set_pc (set_video_buffer s (replicate 32 0)) (pc s + 2)))
      with (replicate 32 0).
    apply list_eq. intros i. unfold convert_video_to_sdl.
    rewrite convert_rows_lookup.
    destruct (decide (0 * 64 <= i < (0 + 32) * 64)%nat) as [H|H];
      [|reflexivity].
    assert (Hrow : default 0 (replicate 32 0 !! (i / 64)%nat) = 0).
    { destruct (replicate 32 0 !! (i / 64)%nat) as [v|] eqn:E;
        [|reflexivity].
      apply lookup_replicate_1 in E as [-> _]. reflexivity. }
    rewrite Hrow, pixel_on_zero; [reflexivity|].
    pose proof (Nat.mod_upper_bound i 64 ltac:(lia)). lia.
Qed.

Lemma clear_display_blanks_the_screen_witness :
  exists s s',
    run [0x60; 0x00; 0xA0; 0x50; 0xD0; 0x05; 0x00; 0xE0] 3 = Some s /\
    video_buffer s <> replicate 32 0 /\
    state_step 0 s = Some (s', []) /\
    convert_video_to_sdl (video_buffer s') = replicate (64 * 32) 0.
Proof.
  eexists.
  match goal with |- exists s', ?l = Some ?s /\ _ =>
    assert (Hrun : l = Some s); [vm_compute; reflexivity|]
  end.
  match type of Hrun with _ = Some ?s =>
    destruct (clear_display_blanks_the_screen 0 s) as [s' [Hstep [_ Hblack]]]
  end.
  - vm_compute; reflexivity.
  - vm_compute; reflexivity.
  - exists s'. split; [exact Hrun|].
    split; [vm_compute; discriminate|].
    split; [exact Hstep | exact Hblack].
Defined.

(** ** The input latch and the timers *)

Lemma draw_rows_inputs (todo : nat) : forall row start_x start_y s s',
  draw_rows todo row start_x start_y s = Some s' ->
  keycode s' = keycode s /\ delay_timer s' = delay_timer s /\
  sound_timer s' = sound_timer s.
Proof.
  induction todo as [|todo IH]; intros row sx sy s s' H; simpl in H.
  - injection H as <-. repeat split.
  - destruct (32 <=? u8 (sy + row)).
    + injection H as <-. repeat split.
    + bind_inv H byte E. apply IH in H. destruct H as (Hk & Hd & Hs).
      rewrite Hk, Hd, Hs. destruct (Z.land _ _ =? 0); repeat split.
Qed.

Lemma skip_if_inputs (s : State) (c : bool) :
  keycode (skip_if s c).1.1 = keycode s /\
  delay_timer (skip_if s c).1.1 = delay_timer s /\
  sound_timer (skip_if s c).1.1 = sound_timer s.
Proof. destruct c; repeat split. Qed.

Lemma exec_8_inputs (s : State) (opcode : Z) :
  keycode (exec_8 s opcode).1.1 = keycode s /\
  delay_timer (exec_8 s opcode).1.1 = delay_timer s /\
  sound_timer (exec_8 s opcode).1.1 = sound_timer s.
Proof. unfold exec_8. repeat break_match; repeat split. Qed.

Lemma exec_E_inputs (s : State) (opcode : Z) :
  keycode (exec_E s opcode).1.1 = keycode s /\
  delay_timer (exec_E s opcode).1.1 = delay_timer s /\
  sound_timer (exec_E s opcode).1.1 = sound_timer s.
Proof. unfold exec_E, skip_if. repeat break_match; repeat split. Qed.

Lemma exec_F_inputs (s : State) (opcode : Z) :
  forall s' should_step out,
    exec_F s opcode = Some (s', should_step, out) ->
    keycode s' = keycode s /\
    (imm_nn opcode <> 0x15 -> delay_timer s' = delay_timer s) /\
    (imm_nn opcode <> 0x18 -> sound_timer s' = sound_timer s).
Proof.
  unfold exec_F, instruction_decimal_digits. intros s' b out.
  break_switch;
    try (intros [= <- _ _]; repeat split; intros Hc;
         solve [reflexivity | contradiction]);
    intros H.
  - bind_inv H s0 E0. bind_inv E0 m1 E1. bind_inv E0 m2 E2.
    bind_inv E0 m3 E3. injection E0 as <-. injection H as <- _ _.
    repeat split.
  - bind_inv H m E. injection H as <- _ _. repeat split.
  - bind_inv H bs E. injection H as <- _ _. repeat split.
Qed.

Lemma outcome_inputs
    (o : Outcome) (s s' : State) (b : bool) (out : list Diag) (A B : Prop) :
  o = (s', b, out) ->
  keycode o.1.1 = keycode s /\ delay_timer o.1.1 = delay_timer s /\
    sound_timer o.1.1 = sound_timer s ->
  keycode s' = keycode s /\
  (A -> delay_timer s' = delay_timer s) /\
  (B -> sound_timer s' = sound_timer s).
Proof. intros -> (Hk & Hd & Hs). repeat split; auto. Qed.

Lemma exec_inputs (rand : Z) (s : State) (opcode : Z) :
  forall s' should_step out,
    exec rand s opcode = Some (s', should_step, out) ->
    keycode s' = keycode s /\
    (writes_delay_timer opcode = false -> delay_timer s' = delay_timer s) /\
    (writes_sound_timer opcode = false -> sound_timer s' = sound_timer s).
Proof.
  intros s' b out. unfold exec, writes_delay_timer, writes_sound_timer.
  break_switch;
    try (intros [= <- _ _]; repeat split; fail);
    try (intros [= H]; apply (outcome_inputs _ _ _ _ _ _ _ H);
         first [ apply skip_if_inputs | apply exec_8_inputs
               | apply exec_E_inputs ]);
    intros H.
  - unfold state_pop_from_stack in H.
    bind_inv H r E. bind_inv E hi E1. bind_inv E lo E2. bind_inv E m E3.
    injection E as <-. injection H as <- _ _. repeat split.
  - destruct (exec_F_inputs _ _ _ _ _ H) as (Hk & Hd & Hs).
    split; [exact Hk|]. simpl. split; intros Hc.
    + apply Hd. intros Hnn. rewrite Hnn in Hc. discriminate Hc.
    + apply Hs. intros Hnn. rewrite Hnn in Hc. discriminate Hc.
  - unfold instruction_draw_sprite in H. bind_inv H s0 E.
    injection H as <- _ _.
    destruct (draw_rows_inputs _ _ _ _ _ _ E) as (Hk & Hd & Hs).
    simpl in Hk, Hd, Hs. repeat split; auto.
  - unfold state_push_to_stack in H. bind_inv H s0 E. bind_inv E m E1.
    injection E as <-. injection H as <- _ _. repeat split.
Qed.

(** X11: a step never changes the input latch; it changes the delay timer
    only on Fx15 and the sound timer only on Fx18. *)
Theorem step_leaves_latch_and_timers_to_the_driver
    (rand : Z) (s s' : State) (out : list Diag) (opcode : Z) :
  fetch s = Some opcode ->
  state_step rand s = Some (s', out) ->
  keycode s' = keycode s /\
  (writes_delay_timer opcode = false -> delay_timer s' = delay_timer s) /\
  (writes_sound_timer opcode = false -> sound_timer s' = sound_timer s).
Proof.
  intros Hf H. unfold state_step in H.
  destruct (MEMORY_SIZE - 1 <=? pc s).
  { injection H as <- _. repeat split. }
  rewrite Hf in H. cbn [bind] in H.
  bind_inv H r E. destruct r as [[s1 b] out1]. injection H as <- _.
  destruct (exec_inputs _ _ _ _ _ _ E) as (Hk & Hd & Hs).
  destruct b; repeat split; auto.
Qed.

Lemma step_leaves_latch_and_timers_to_the_driver_witness :
  exists s s',
    run [0x60; 0x2A; 0xF0; 0x15; 0xF0; 0x18] 1 = Some s /\
    state_step 0 s = Some (s', []) /\
    delay_timer s' = 0x2A /\
    keycode s' = keycode s /\ sound_timer s' = sound_timer s.
Proof.
  eexists. eexists.
  match goal with |- ?l = Some ?s /\ ?r = Some (?s', _) /\ _ =>
    assert (Hrun : l = Some s); [vm_compute; reflexivity|];
    assert (Hstep : r = Some (s', [])); [vm_compute; reflexivity|]
  end.
  split; [exact Hrun|]. split; [exact Hstep|]. split; [reflexivity|].
  match type of Hstep with state_step ?r ?s = Some (?s', ?out) =>
    destruct (step_leaves_latch_and_timers_to_the_driver r s s' out 0xF015)
      as (Hk & _ & Hs)
  end.
  - vm_compute; reflexivity.
  - exact Hstep.
  - split; [exact Hk|]. apply Hs. vm_compute; reflexivity.
Defined.
